(** * nrtm4client: the synchronisation engine of [internal/nrtm4/service]

    A shallow embedding of [process.go]: the notification analyser
    [findUpdates], the delta header check [validateDeltaHeader], the delta
    and snapshot record callbacks, the batch buffer [RPSLObjectList] and the
    coordinator entry points [Update] and [ReplaceLabel].

    Conventions.
    - Go's [uint32] and [int] are [Z]; where the source does [uint32]
      arithmetic the wrap-around is written out ([wrap32]).
    - Go's [error] is [option Err]; [None] is [nil].
    - A pointer that the source dereferences is an [option]; dereferencing
      [None] is a run-time panic, which the model keeps as an outcome.
    - The repository is an interface in the source and a type class here. *)

From Stdlib Require Import ZArith String List Lia.
From stdpp Require Import base decidable option list sorting gmap strings.

Open Scope string_scope.
Open Scope list_scope.
Open Scope Z_scope.

(** ** Errors *)

(** The package-level error values of [process.go], the two sentinels the
    callbacks compare against ([io.EOF], [persist.ErrNoEntity]), errors made
    on the spot with [errors.New], and errors that come out of a library or
    of the repository. *)
Inductive Err : Type :=
  | ErrNRTMVersionMismatch
  | ErrNRTMSourceMismatch
  | ErrNRTMSourceNameMismatch
  | ErrNRTMFileVersionMismatch
  | ErrNRTMFileVersionInconsistency
  | ErrNRTMNoDeltasInNotification
  | ErrNRTMNotificationDeltaSequenceBroken
  | ErrNRTMNotificationVersionDoesNotMatchDelta
  | ErrNRTMDuplicateDeltaVersion
  | ErrNextConsecutiveDeltaUnavaliable
  | ErrSourceAlreadyExists
  | io_EOF
  | persist_ErrNoEntity
  | errors_New (msg : string)
  | lib_error (pkg : string) (msg : string).

Definition error : Type := option Err.

#[global] Instance Err_eq_dec : EqDecision Err.
Proof. solve_decision. Defined.

(** ** Data model (package [persist]) *)

Module FileRefJSON.
Record t : Type := mk { Version : Z; URL : string; Hash : string }.
End FileRefJSON.

Module NrtmFileJSON.
Record t : Type := mk {
  NrtmVersion : Z;
  Type_ : string;
  Source : string;
  SessionID : string;
  Version : Z
}.
End NrtmFileJSON.

(** [SnapshotFileJSON] and [DeltaFileJSON] embed [NrtmFileJSON]. *)
Module SnapshotFileJSON.
Record t : Type := mk { NrtmFileJSON : NrtmFileJSON.t }.
Definition Version (sf : t) : Z := NrtmFileJSON.Version (NrtmFileJSON sf).
End SnapshotFileJSON.

Module DeltaFileJSON.
Record t : Type := mk { NrtmFileJSON : NrtmFileJSON.t }.
End DeltaFileJSON.

(** [DeltaRefs] is a pointer to a slice in the source, hence the [option]. *)
Module NotificationJSON.
Record t : Type := mk {
  NrtmFileJSON : NrtmFileJSON.t;
  SnapshotRef : FileRefJSON.t;
  DeltaRefs : option (list FileRefJSON.t)
}.
Definition Source (n : t) : string := NrtmFileJSON.Source (NrtmFileJSON n).
Definition SessionID (n : t) : string := NrtmFileJSON.SessionID (NrtmFileJSON n).
Definition Version (n : t) : Z := NrtmFileJSON.Version (NrtmFileJSON n).
End NotificationJSON.

Module NRTMSource.
Record t : Type := mk {
  ID : Z;
  Source : string;
  SessionID : string;
  Version : Z;
  NotificationURL : string;
  Label : string;
  Created : Z
}.
(** [source.Version = v] on a struct held by value. *)
Definition setVersion (s : t) (v : Z) : t :=
  mk (ID s) (Source s) (SessionID s) v (NotificationURL s) (Label s) (Created s).
(** [target.Label = l]. *)
Definition setLabel (s : t) (l : string) : t :=
  mk (ID s) (Source s) (SessionID s) (Version s) (NotificationURL s) l (Created s).
End NRTMSource.

(** The three payload fields of a delta record are pointers: the source
    reads them as [*delta.Object], [*delta.ObjectClass], [*delta.PrimaryKey]. *)
Module DeltaJSON.
Record t : Type := mk {
  Action : string;
  Object : option string;
  ObjectClass : option string;
  PrimaryKey : option string
}.
End DeltaJSON.

Module SnapshotObjectJSON.
Record t : Type := mk { Object : string }.
End SnapshotObjectJSON.

Definition DeltaAddModifyAction : string := "add_modify".
Definition DeltaDeleteAction : string := "delete".

(** Package [rpsl]: a parsed object. *)
Module Rpsl.
Record t : Type := mk {
  ObjectType : string;
  PrimaryKey : string;
  Payload : string
}.
End Rpsl.

#[global] Instance FileRefJSON_eq_dec : EqDecision FileRefJSON.t.
Proof. solve_decision. Defined.
#[global] Instance NrtmFileJSON_eq_dec : EqDecision NrtmFileJSON.t.
Proof. solve_decision. Defined.
#[global] Instance NRTMSource_eq_dec : EqDecision NRTMSource.t.
Proof. solve_decision. Defined.
#[global] Instance Rpsl_eq_dec : EqDecision Rpsl.t.
Proof. solve_decision. Defined.

(** ** Machine integers *)

Definition u32_max : Z := 4294967295.

(** The value of a [uint32] expression after wrap-around. *)
Definition wrap32 (z : Z) : Z := z mod 4294967296.

(** [z] is a value a [uint32] can hold. *)
Definition is_u32 (z : Z) : Prop := 0 <= z <= u32_max.

Definition rpslInsertBatchSize : Z := 1000.

(** ** [validateDeltaHeader] *)

Definition validateDeltaHeader (file : NrtmFileJSON.t) (source : NRTMSource.t)
    (deltaRef : FileRefJSON.t) : error :=
  if negb (NrtmFileJSON.NrtmVersion file =? 4) then
    Some ErrNRTMVersionMismatch
  else if negb (String.eqb (NrtmFileJSON.SessionID file) (NRTMSource.SessionID source)) then
    Some ErrNRTMSourceMismatch
  else if negb (String.eqb (NrtmFileJSON.Source file) (NRTMSource.Source source)) then
    Some ErrNRTMSourceNameMismatch
  else if negb (NrtmFileJSON.Version file =? FileRefJSON.Version deltaRef) then
    Some ErrNRTMFileVersionMismatch
  else if NrtmFileJSON.Version file <? NRTMSource.Version source then
    Some ErrNRTMFileVersionInconsistency
  else
    None.

(** ** [findUpdates] *)

(** Modelled from the spec: [util.NewSet], whose source is not part of the
    files at hand; it collects its arguments into a set, so that a repeated
    version makes the set smaller than the slice. *)
Definition NewSet (versions : list Z) : gset Z := list_to_set versions.

(** [sort.Slice(versions, func(i, j) { return versions[i] < versions[j] })]:
    the ascending rearrangement of the slice. *)
Definition sortVersions (versions : list Z) : list Z := merge_sort Z.le versions.

(** The loop [for i := 0; i < len(versions)-1; i++] that compares
    [versions[i]+1] with [versions[i+1]]; [false] when it returns early. *)
Fixpoint contiguous (versions : list Z) : bool :=
  match versions with
  | v :: (w :: _) as rest =>
      if wrap32 (v + 1) =? w then contiguous rest else false
  | _ => true
  end.

(** The result pair of [findUpdates]; a [nil] slice is the empty list. *)
Definition findUpdates (notification : NotificationJSON.t) (source : NRTMSource.t)
    : list FileRefJSON.t * error :=
  match NotificationJSON.DeltaRefs notification with
  | None | Some [] => ([], Some ErrNRTMNoDeltasInNotification)
  | Some refs =>
      let deltaRefs :=
        List.filter (fun deltaRef =>
          NRTMSource.Version source <? FileRefJSON.Version deltaRef) refs in
      let versions := List.map FileRefJSON.Version refs in
      let versionSet := NewSet versions in
      if negb (Nat.eqb (size versionSet) (length versions)) then
        ([], Some ErrNRTMDuplicateDeltaVersion)
      else
        let versions := sortVersions versions in
        let lo := List.nth 0 versions 0 in
        let hi := List.nth (length versions - 1) versions 0 in
        if negb (hi =? NotificationJSON.Version notification) then
          ([], Some ErrNRTMNotificationVersionDoesNotMatchDelta)
        else if negb (contiguous versions) then
          ([], Some ErrNRTMNotificationDeltaSequenceBroken)
        else if wrap32 (NRTMSource.Version source + 1) <? lo then
          ([], Some ErrNextConsecutiveDeltaUnavaliable)
        else
          (deltaRefs, None)
  end.

(** Modelled from the spec: [fileRefsByVersion], the [sort.Interface] that
    [syncDeltas] sorts the analyser's result with; its declaration is not
    part of the files at hand, the test [TestFileRefSorter] fixes that it
    orders by ascending [Version]. *)
Definition fileRefsByVersion (a b : FileRefJSON.t) : Prop :=
  FileRefJSON.Version a <= FileRefJSON.Version b.

#[global] Instance fileRefsByVersion_dec a b : Decision (fileRefsByVersion a b).
Proof. unfold fileRefsByVersion. apply _. Defined.

#[global] Instance fileRefsByVersion_total : Total fileRefsByVersion.
Proof. intros a b. unfold fileRefsByVersion. lia. Qed.

#[global] Instance fileRefsByVersion_trans : Transitive fileRefsByVersion.
Proof. intros a b c. unfold fileRefsByVersion. lia. Qed.

Definition sortFileRefs (refs : list FileRefJSON.t) : list FileRefJSON.t :=
  merge_sort fileRefsByVersion refs.

(** ** [RPSLObjectList], the batch buffer *)

(** The mutex makes every method one atomic step on [objects]. *)
Module RPSLObjectList.
Record t : Type := mk { objects : list Rpsl.t }.

Definition NewRPSLObjectList : t := mk [].

Definition Add (l : t) (obj : Rpsl.t) : t := mk (objects l ++ [obj]).

(** [GetBatch] returns the batch and the list as it is afterwards.
    [None] is the slice-bounds panic of [l.objects[:size]] on a negative
    [size] (the guard [len(l.objects) >= size] lets it through). *)
Definition GetBatch (l : t) (size : Z) : option (list Rpsl.t * t) :=
  if Z.of_nat (length (objects l)) >=? size then
    if size <? 0 then None
    else Some (take (Z.to_nat size) (objects l),
               mk (drop (Z.to_nat size) (objects l)))
  else Some ([], l).

Definition GetAll (l : t) : list Rpsl.t * t := (objects l, mk []).
End RPSLObjectList.

(** ** Running Go code: outcomes and a state monad *)

(** A call returns, panics (nil dereference, slice bounds), or ends the
    process ([log.Fatalln]). *)
Inductive Result (A : Type) : Type :=
  | Returned (a : A)
  | Panicked
  | Exited.
Arguments Returned {A} a.
Arguments Panicked {A}.
Arguments Exited {A}.

(** A computation over the mutable state [S] it can reach. The state is kept
    when the computation panics: what was written to the store stays there. *)
Definition M (S A : Type) : Type := S -> Result A * S.

Definition ret {S A} (a : A) : M S A := fun s => (Returned a, s).

Definition bind {S A B} (m : M S A) (k : A -> M S B) : M S B :=
  fun s =>
    match m s with
    | (Returned a, s') => k a s'
    | (Panicked, s') => (Panicked, s')
    | (Exited, s') => (Exited, s')
    end.

Definition get {S} : M S S := fun s => (Returned s, s).
Definition log_Fatalln {S A} : M S A := fun s => (Exited, s).

(** [*p] for a pointer [p]. *)
Definition deref {S A} (p : option A) : M S A :=
  fun s =>
    match p with
    | Some a => (Returned a, s)
    | None => (Panicked, s)
    end.

#[global] Instance M_ret {S} : MRet (M S) := fun A a => ret a.
#[global] Instance M_bind {S} : MBind (M S) := fun A B k m => bind m k.

(** ** The collaborators of the service *)

Definition Bytes : Type := list Byte.byte.

#[global] Instance byte_eq_dec : EqDecision Byte.byte := Byte.byte_eq_dec.

(** [encoding/json] and [rpsl.ParseString] are libraries; the service is
    stated over any behaviour of theirs. [json.Unmarshal] is taken at each
    of the four target types; [rpsl.ParseString] returns a value and an
    error together, as in Go. *)
Class Decoders : Type := {
  json_Unmarshal_DeltaFileJSON : Bytes -> Err + DeltaFileJSON.t;
  json_Unmarshal_DeltaJSON : Bytes -> Err + DeltaJSON.t;
  json_Unmarshal_SnapshotFileJSON : Bytes -> Err + SnapshotFileJSON.t;
  json_Unmarshal_SnapshotObjectJSON : Bytes -> Err + SnapshotObjectJSON.t;
  rpsl_ParseString : string -> Rpsl.t * error
}.

(** Modelled from the spec: the [persist.Repository] interface with the
    methods [process.go] calls (the interface file at hand is an earlier
    revision without them), the lookup of [NrtmDataService] and [db.Update];
    [R] is the state of the store. Operations that return an error in Go
    return it here next to the store as it is afterwards. *)
Class Repository (R : Type) : Type := {
  SaveSource : NRTMSource.t -> NotificationJSON.t -> R -> (NRTMSource.t * error) * R;
  AddModifyObject : NRTMSource.t -> Rpsl.t -> NrtmFileJSON.t -> R -> error * R;
  DeleteObject : NRTMSource.t -> string -> string -> NrtmFileJSON.t -> R -> error * R;
  SaveSnapshotObjects : NRTMSource.t -> list Rpsl.t -> NrtmFileJSON.t -> R -> error * R;
  getSourceByNameAndLabel : string -> string -> R -> option NRTMSource.t;
  db_Update : NRTMSource.t -> R -> error * R
}.

(** Modelled from the spec: [db.WithTransaction]; the writes of [fn] are
    kept when it returns [nil] and undone when it returns an error. *)
Definition db_WithTransaction {R} (fn : R -> error * R) (r : R) : error * R :=
  match fn r with
  | (None, r') => (None, r')
  | (Some e, _) => (Some e, r)
  end.

(** Modelled from the spec: the two [fileManager] methods over the [Client]
    interface that [Update] and [syncDeltas] use. A fetched file is given as
    the records the JSON-sequence reader finds in it: those before the last,
    and the bytes that are left when the stream ends. *)
Class Client : Type := {
  downloadNotificationFile : string -> NotificationJSON.t * list Err;
  fetchFileAndCheckHash : FileRefJSON.t -> string -> (list Bytes * Bytes) * error
}.

(** A store operation as a computation on the store. *)
Definition store {R A} (op : R -> A * R) : M R A :=
  fun r => let '(a, r') := op r in (Returned a, r').

(** A store operation run from inside a callback, whose state is the store
    together with the variables [C] its closure captured. *)
Definition call {R C A} (op : R -> A * R) : M (R * C) A :=
  fun s => let '(a, r') := op (fst s) in (Returned a, (r', snd s)).

Definition getVars {R C} : M (R * C) C := fun s => (Returned (snd s), s).
Definition setVars {R C} (f : C -> C) : M (R * C) unit :=
  fun s => (Returned tt, (fst s, f (snd s))).

(** Calling a closure with fresh captured variables [c0]. *)
Definition withVars {R C A} (c0 : C) (m : M (R * C) A) : M R A :=
  fun r => let '(res, s') := m (r, c0) in (res, fst s').

(** Modelled from the spec: [fileManager.readJSONSeqRecords], that is
    [jsonseq.ReadRecords]. The callback gets every record with a [nil]
    error, and the last bytes with [io.EOF]; a returned error that is
    neither [nil] nor [io.EOF] stops the reader; at the end of the stream
    the reader returns the callback's error, or [io.EOF] when that is
    [nil]. *)
Fixpoint readJSONSeqRecords {S} (records : list Bytes) (final : Bytes)
    (fn : Bytes -> error -> M S error) : M S error :=
  match records with
  | [] =>
      err ← fn final (Some io_EOF);
      match err with
      | Some e => ret (Some e)
      | None => ret (Some io_EOF)
      end
  | bytes :: rest =>
      err ← fn bytes None;
      match err with
      | None | Some io_EOF => readJSONSeqRecords rest final fn
      | Some e => ret (Some e)
      end
  end.

(** ** The service *)

Section Service.
Context {D : Decoders} {R : Type} {Repo : Repository R} {Cl : Client}.

(** *** [applyDeltaFunc] *)

(** The variables the closure of [applyDeltaFunc] captures and assigns:
    [header], and its own copy of [source] (the parameter is a struct
    passed by value). *)
Record DeltaVars : Type := mkDeltaVars {
  header : option DeltaFileJSON.t;
  source : NRTMSource.t
}.

Definition applyDeltaFunc (notification : NotificationJSON.t)
    (deltaRef : FileRefJSON.t) (bytes : Bytes) (err : error)
    : M (R * DeltaVars) error :=
  match err with
  | Some persist_ErrNoEntity => mret err
  | None | Some io_EOF =>
      vars ← getVars;
      match header vars with
      | None =>
          match json_Unmarshal_DeltaFileJSON bytes with
          | inl e => mret (Some e)
          | inr deltaHeader =>
              match validateDeltaHeader (DeltaFileJSON.NrtmFileJSON deltaHeader)
                      (source vars) deltaRef with
              | Some e => mret (Some e)
              | None =>
                  let source' :=
                    NRTMSource.setVersion (source vars) (FileRefJSON.Version deltaRef) in
                  setVars (fun _ => mkDeltaVars (Some deltaHeader) source');;
                  res ← call (SaveSource source' notification);
                  mret (snd res)
              end
          end
      | Some hdr =>
          match json_Unmarshal_DeltaJSON bytes with
          | inl e => mret (Some e)
          | inr delta =>
              if String.eqb (DeltaJSON.Action delta) DeltaAddModifyAction then
                object ← deref (DeltaJSON.Object delta);
                let '(rpsl, err) := rpsl_ParseString object in
                match err with
                | Some e => mret (Some e)
                | None =>
                    err ← call (AddModifyObject (source vars) rpsl
                                  (DeltaFileJSON.NrtmFileJSON hdr));
                    match err with
                    | Some e => mret (Some e)
                    | None => mret None
                    end
                end
              else if String.eqb (DeltaJSON.Action delta) DeltaDeleteAction then
                objectClass ← deref (DeltaJSON.ObjectClass delta);
                primaryKey ← deref (DeltaJSON.PrimaryKey delta);
                call (DeleteObject (source vars) objectClass primaryKey
                        (DeltaFileJSON.NrtmFileJSON hdr));;
                mret None
              else
                mret (Some (errors_New
                  ("no delta action available: " +:+ DeltaJSON.Action delta)))
          end
      end
  | Some _ => mret err
  end.

(** *** [snapshotObjectInsertFunc] *)

Definition bytesToRPSL (bytes : Bytes) : option Rpsl.t :=
  match json_Unmarshal_SnapshotObjectJSON bytes with
  | inl _ => None
  | inr so =>
      let '(rpsl, _) := rpsl_ParseString (SnapshotObjectJSON.Object so) in
      Some rpsl
  end.

(** The variables the closure of [snapshotObjectInsertFunc] captures. The
    parser pool and the wait group only bound and join the workers and
    hold no data, so they are left out. *)
Record SnapshotVars : Type := mkSnapshotVars {
  snapshotHeader : option SnapshotFileJSON.t;
  objectList : RPSLObjectList.t;
  successfulObjects : Z;
  failedObjects : Z;
  snapshotSource : NRTMSource.t
}.

Definition setSnapshotHeader (h : SnapshotFileJSON.t) (v : SnapshotVars) :=
  mkSnapshotVars (Some h) (objectList v) (successfulObjects v)
    (failedObjects v) (snapshotSource v).
Definition setObjectList (l : RPSLObjectList.t) (v : SnapshotVars) :=
  mkSnapshotVars (snapshotHeader v) l (successfulObjects v)
    (failedObjects v) (snapshotSource v).
Definition incSuccessfulObjects (v : SnapshotVars) :=
  mkSnapshotVars (snapshotHeader v) (objectList v) (successfulObjects v + 1)
    (failedObjects v) (snapshotSource v).
Definition incFailedObjects (v : SnapshotVars) :=
  mkSnapshotVars (snapshotHeader v) (objectList v) (successfulObjects v)
    (failedObjects v + 1) (snapshotSource v).
Definition setSnapshotSource (s : NRTMSource.t) (v : SnapshotVars) :=
  mkSnapshotVars (snapshotHeader v) (objectList v) (successfulObjects v)
    (failedObjects v) s.

(** The local function [incrementCounters], run as one step. *)
Definition incrementCounters (res : option Rpsl.t) : M (R * SnapshotVars) unit :=
  match res with
  | Some obj =>
      setVars (fun v => setObjectList (RPSLObjectList.Add (objectList v) obj) v);;
      setVars incSuccessfulObjects
  | None => setVars incFailedObjects
  end;;
  vars ← getVars;
  batch ← deref (RPSLObjectList.GetBatch (objectList vars) rpslInsertBatchSize);
  setVars (setObjectList (snd batch));;
  let rpslObjects := fst batch in
  if (0 <? Z.of_nat (length rpslObjects)) then
    hdr ← deref (snapshotHeader vars);
    err ← call (SaveSnapshotObjects (snapshotSource vars) rpslObjects
                  (SnapshotFileJSON.NrtmFileJSON hdr));
    match err with
    | Some _ => log_Fatalln
    | None => mret tt
    end
  else mret tt.

(** The returned callback. A record after the header is handed to a
    goroutine in the source; here the goroutine's body runs at the place
    where it is started, which is one of the schedules of the source. *)
Definition snapshotObjectInsertFunc (notification : NotificationJSON.t)
    (bytes : Bytes) (err : error) : M (R * SnapshotVars) error :=
  match err with
  | Some persist_ErrNoEntity => mret None
  | Some io_EOF =>
      incrementCounters (bytesToRPSL bytes);;
      vars ← getVars;
      let all := RPSLObjectList.GetAll (objectList vars) in
      setVars (setObjectList (snd all));;
      hdr ← deref (snapshotHeader vars);
      err ← call (SaveSnapshotObjects (snapshotSource vars) (fst all)
                    (SnapshotFileJSON.NrtmFileJSON hdr));
      match err with
      | Some e => mret (Some e)
      | None =>
          let source' :=
            NRTMSource.setVersion (snapshotSource vars) (SnapshotFileJSON.Version hdr) in
          setVars (setSnapshotSource source');;
          res ← call (SaveSource source' notification);
          mret (snd res)
      end
  | Some _ => mret err
  | None =>
      vars ← getVars;
      if successfulObjects vars =? 0 then
        setVars incSuccessfulObjects;;
        match json_Unmarshal_SnapshotFileJSON bytes with
        | inl e => mret (Some e)
        | inr sf =>
            if negb (SnapshotFileJSON.Version sf =?
                     FileRefJSON.Version (NotificationJSON.SnapshotRef notification)) then
              mret (Some ErrNRTMFileVersionMismatch)
            else
              setVars (setSnapshotHeader sf);;
              mret None
        end
      else
        incrementCounters (bytesToRPSL bytes);;
        mret None
  end.

(** The captured variables as [snapshotObjectInsertFunc] sets them up. *)
Definition newSnapshotVars (source : NRTMSource.t) : SnapshotVars :=
  mkSnapshotVars None RPSLObjectList.NewRPSLObjectList 0 0 source.

(** *** [syncDeltas], [Update], [ReplaceLabel] *)

(** The loop of [syncDeltas] over the sorted references. Every delta gets
    a new closure, made from the same [source] value. *)
Fixpoint applyDeltas (path : string) (notification : NotificationJSON.t)
    (source : NRTMSource.t) (deltaRefs : list FileRefJSON.t) : M R error :=
  match deltaRefs with
  | [] => mret None
  | deltaRef :: rest =>
      let '(file, err) := fetchFileAndCheckHash deltaRef path in
      match err with
      | Some e => mret (Some e)
      | None =>
          err ← withVars (mkDeltaVars None source)
                  (readJSONSeqRecords (fst file) (snd file)
                     (applyDeltaFunc notification deltaRef));
          match err with
          | Some io_EOF => applyDeltas path notification source rest
          | _ => mret err
          end
      end
  end.

Definition syncDeltas (path : string) (notification : NotificationJSON.t)
    (source : NRTMSource.t) : M R error :=
  let '(deltaRefs, err) := findUpdates notification source in
  match err with
  | Some e => mret (Some e)
  | None => applyDeltas path notification source (sortFileRefs deltaRefs)
  end.

(** [path] is [p.config.NRTMFilePath]. *)
Definition Update (path : string) (sourceName label : string) : M R error :=
  r ← get;
  match getSourceByNameAndLabel sourceName label r with
  | None => mret (Some (errors_New "no source found"))
  | Some source =>
      let '(notification, errs) :=
        downloadNotificationFile (NRTMSource.NotificationURL source) in
      if (0 <? Z.of_nat (length errs)) then
        mret (Some (errors_New "problem downloading notification file"))
      else if negb (String.eqb (NotificationJSON.SessionID notification)
                      (NRTMSource.SessionID source)) then
        mret (Some (errors_New "server has a new mirror session"))
      else if NotificationJSON.Version notification <? NRTMSource.Version source then
        mret (Some (errors_New "server has old version"))
      else if NotificationJSON.Version notification =? NRTMSource.Version source then
        mret None
      else syncDeltas path notification source
  end.

Definition ReplaceLabel (src fromLabel toLabel : string)
    : M R (option NRTMSource.t * error) :=
  r ← get;
  match getSourceByNameAndLabel src fromLabel r with
  | None =>
      mret (None, Some (errors_New "cannot find source with given name and label"))
  | Some target =>
      match getSourceByNameAndLabel src toLabel r with
      | Some _ => mret (None, Some ErrSourceAlreadyExists)
      | None =>
          let target := NRTMSource.setLabel target toLabel in
          err ← store (db_WithTransaction (db_Update target));
          mret (Some target, err)
      end
  end.

End Service.

(** ** An in-memory repository *)

(** Modelled from the spec: a store that keeps what the [Repository]
    capability is said to keep: the source records (one per [ID]), the
    notification history, and the current objects of each source, one per
    [(objectClass, primaryKey)]. [deleteFault] is the error the next
    [DeleteObject] calls fail with, for a store whose deletes go wrong. *)
Module MemRepo.
Record t : Type := mk {
  sources : list NRTMSource.t;
  history : list (Z * NotificationJSON.t);
  objects : list (Z * Rpsl.t);
  deleteFault : error
}.

Fixpoint upsert (s : NRTMSource.t) (l : list NRTMSource.t) : list NRTMSource.t :=
  match l with
  | [] => [s]
  | x :: rest =>
      if NRTMSource.ID x =? NRTMSource.ID s then s :: rest else x :: upsert s rest
  end.

Definition sameObject (id : Z) (cls pk : string) (o : Z * Rpsl.t) : bool :=
  (fst o =? id) && String.eqb (Rpsl.ObjectType (snd o)) cls
    && String.eqb (Rpsl.PrimaryKey (snd o)) pk.

Definition without (id : Z) (cls pk : string) (l : list (Z * Rpsl.t)) :=
  List.filter (fun o => negb (sameObject id cls pk o)) l.

Definition saveSource (s : NRTMSource.t) (n : NotificationJSON.t) (r : t)
    : (NRTMSource.t * error) * t :=
  ((s, None),
   mk (upsert s (sources r)) ((NRTMSource.ID s, n) :: history r)
      (objects r) (deleteFault r)).

Definition addModifyObject (s : NRTMSource.t) (o : Rpsl.t) (_ : NrtmFileJSON.t)
    (r : t) : error * t :=
  (None,
   mk (sources r) (history r)
      ((NRTMSource.ID s, o)
         :: without (NRTMSource.ID s) (Rpsl.ObjectType o) (Rpsl.PrimaryKey o) (objects r))
      (deleteFault r)).

Definition deleteObject (s : NRTMSource.t) (cls pk : string) (_ : NrtmFileJSON.t)
    (r : t) : error * t :=
  match deleteFault r with
  | Some e => (Some e, r)
  | None =>
      (None,
       mk (sources r) (history r) (without (NRTMSource.ID s) cls pk (objects r))
          (deleteFault r))
  end.

Definition saveSnapshotObjects (s : NRTMSource.t) (os : list Rpsl.t)
    (_ : NrtmFileJSON.t) (r : t) : error * t :=
  (None,
   mk (sources r) (history r)
      (objects r ++ List.map (fun o => (NRTMSource.ID s, o)) os)
      (deleteFault r)).

Definition lookup (name label : string) (r : t) : option NRTMSource.t :=
  List.find (fun s => String.eqb (NRTMSource.Source s) name
                      && String.eqb (NRTMSource.Label s) label) (sources r).

Definition update (s : NRTMSource.t) (r : t) : error * t :=
  (None,
   mk (List.map (fun x => if NRTMSource.ID x =? NRTMSource.ID s then s else x)
         (sources r))
      (history r) (objects r) (deleteFault r)).

(** The version the store holds for the source with the given [ID]. *)
Definition persistedVersion (id : Z) (r : t) : option Z :=
  NRTMSource.Version <$> List.find (fun s => NRTMSource.ID s =? id) (sources r).
End MemRepo.

#[global] Instance MemRepo_Repository : Repository MemRepo.t := {|
  SaveSource := MemRepo.saveSource;
  AddModifyObject := MemRepo.addModifyObject;
  DeleteObject := MemRepo.deleteObject;
  SaveSnapshotObjects := MemRepo.saveSnapshotObjects;
  getSourceByNameAndLabel := MemRepo.lookup;
  db_Update := MemRepo.update
|}.

(** ** Decoders and a client given by tables *)

(** Stand-ins for [encoding/json], [rpsl] and the network in the closed
    examples below: what each yields on the inputs of an example is listed
    in a table; on anything else the decoders report a syntax error. *)
Module Table.
Definition bytes_lookup {A} (table : list (Bytes * A)) (b : Bytes) : Err + A :=
  match List.find (fun p => bool_decide (fst p = b)) table with
  | Some p => inr (snd p)
  | None => inl (lib_error "json" "invalid character")
  end.

Definition parse_lookup (table : list (string * Rpsl.t)) (text : string)
    : Rpsl.t * error :=
  match List.find (fun p => String.eqb (fst p) text) table with
  | Some p => (snd p, None)
  | None => (Rpsl.mk "" "" "", Some (lib_error "rpsl" "not an RPSL object"))
  end.

Definition decoders
    (deltaFiles : list (Bytes * DeltaFileJSON.t))
    (deltas : list (Bytes * DeltaJSON.t))
    (snapshotFiles : list (Bytes * SnapshotFileJSON.t))
    (snapshotObjects : list (Bytes * SnapshotObjectJSON.t))
    (rpsls : list (string * Rpsl.t)) : Decoders := {|
  json_Unmarshal_DeltaFileJSON := bytes_lookup deltaFiles;
  json_Unmarshal_DeltaJSON := bytes_lookup deltas;
  json_Unmarshal_SnapshotFileJSON := bytes_lookup snapshotFiles;
  json_Unmarshal_SnapshotObjectJSON := bytes_lookup snapshotObjects;
  rpsl_ParseString := parse_lookup rpsls
|}.

Definition client (notification : NotificationJSON.t)
    (files : list (Z * (list Bytes * Bytes))) : Client := {|
  downloadNotificationFile := fun _ => (notification, []);
  fetchFileAndCheckHash := fun ref _ =>
    match List.find (fun p => fst p =? FileRefJSON.Version ref) files with
    | Some p => (snd p, None)
    | None => (([], []), Some (lib_error "http" "404 Not Found"))
    end
|}.
End Table.

(** ** Notions the statements below are written with *)

(** The least and the greatest element of a non-empty list. *)
Definition minOf (l : list Z) : Z := foldr Z.min (List.hd 0 l) l.
Definition maxOf (l : list Z) : Z := foldr Z.max (List.hd 0 l) l.

(** The versions are [lo, lo+1, ..., lo+n-1] in some order. *)
Definition strictlyContiguous (versions : list Z) : Prop :=
  versions ≡ₚ seqZ (minOf versions) (Z.of_nat (length versions)).

(** The store [r'] comes from [r] by object operations alone: a run of
    [AddModifyObject] and [DeleteObject] calls, and nothing else. *)
Inductive objectOps {R : Type} {Repo : Repository R} : R → R → Prop :=
  | objectOps_refl r : objectOps r r
  | objectOps_add r r' src obj hdr :
      objectOps r r' → objectOps r (snd (AddModifyObject src obj hdr r'))
  | objectOps_delete r r' src cls pk hdr :
      objectOps r r' → objectOps r (snd (DeleteObject src cls pk hdr r')).

(** The callback [fn] takes the records one after the other from state [s],
    returns [nil] on each and leaves the state [s']. *)
Inductive accepted {S : Type} (fn : Bytes → error → M S error)
    : list Bytes → S → S → Prop :=
  | accepted_nil s : accepted fn [] s s
  | accepted_cons bytes rest s s1 s2 :
      fn bytes None s = (Returned None, s1) →
      accepted fn rest s1 s2 →
      accepted fn (bytes :: rest) s s2.

(** ** Values for the closed examples *)

Module Ex.
Definition session : string := "ca128382-78d9-41d1-8927-1ecef15275be".
Definition url : string := "https://example.com/source1/notification.json".

(** The stored source, at the given version. *)
Definition sourceAt (version : Z) : NRTMSource.t :=
  NRTMSource.mk 1 "EXAMPLE" session version url "" 0.

Definition ref (version : Z) : FileRefJSON.t :=
  FileRefJSON.mk version "https://example.com/source1/file.json" "0a1b".

(** A notification at [version] that lists the deltas [versions]. *)
Definition notificationOf (version : Z) (versions : list Z) : NotificationJSON.t :=
  NotificationJSON.mk (NrtmFileJSON.mk 4 "notification" "EXAMPLE" session version)
    (ref 3) (Some (List.map ref versions)).

(** The store with the source at version 4 and one object. *)
Definition route1 : Rpsl.t :=
  Rpsl.mk "route" "192.0.2.0/24AS64496" "route: 192.0.2.0/24 origin: AS64496".
Definition route2 : Rpsl.t :=
  Rpsl.mk "route" "198.51.100.0/24AS64497" "route: 198.51.100.0/24 origin: AS64497".

Definition repoAt (version : Z) (deleteFault : error) : MemRepo.t :=
  MemRepo.mk [sourceAt version] [] [(1, route1)] deleteFault.

(** Records as they come out of the reader. The tables below say what the
    decoders make of them. *)
Definition deltaHeader5 : Bytes :=
  list_byte_of_string "{nrtm_version:4,type:delta,source:EXAMPLE,version:5}".
Definition addRoute2 : Bytes :=
  list_byte_of_string "{action:add_modify,object:route2}".
Definition addGarbage : Bytes :=
  list_byte_of_string "{action:add_modify,object:garbage}".
Definition deleteRoute1 : Bytes :=
  list_byte_of_string "{action:delete,object_class:route,primary_key:route1}".
Definition replaceRoute1 : Bytes :=
  list_byte_of_string "{action:replace,object:route1}".
Definition truncated : Bytes :=
  list_byte_of_string "{action:add_mod".
Definition snapshotHeader3 : Bytes :=
  list_byte_of_string "{nrtm_version:4,type:snapshot,source:EXAMPLE,version:3}".
Definition foreignHeader3 : Bytes :=
  list_byte_of_string "{nrtm_version:3,type:snapshot,source:OTHER,version:3}".
Definition objectRoute1 : Bytes := list_byte_of_string "{object:route1}".
Definition objectRoute2 : Bytes := list_byte_of_string "{object:route2}".
Definition objectGarbage : Bytes := list_byte_of_string "{object:garbage}".

Definition foreignSession : string := "00000000-0000-4000-8000-000000000000".

(** The decoded headers: of the delta file of version 5, of the snapshot of
    version 3, and of a snapshot of another publisher. *)
Definition header5 : DeltaFileJSON.t :=
  DeltaFileJSON.mk (NrtmFileJSON.mk 4 "delta" "EXAMPLE" session 5).
Definition header3 : SnapshotFileJSON.t :=
  SnapshotFileJSON.mk (NrtmFileJSON.mk 4 "snapshot" "EXAMPLE" session 3).
Definition foreignHeader : SnapshotFileJSON.t :=
  SnapshotFileJSON.mk (NrtmFileJSON.mk 3 "snapshot" "OTHER" foreignSession 3).

Definition decoders : Decoders :=
  Table.decoders
    [(deltaHeader5, header5)]
    [(addRoute2,
      DeltaJSON.mk "add_modify" (Some (Rpsl.Payload route2)) None None);
     (addGarbage, DeltaJSON.mk "add_modify" (Some "garbage") None None);
     (deleteRoute1,
      DeltaJSON.mk "delete" None (Some "route") (Some (Rpsl.PrimaryKey route1)));
     (replaceRoute1,
      DeltaJSON.mk "replace" (Some (Rpsl.Payload route1)) None None)]
    [(snapshotHeader3, header3); (foreignHeader3, foreignHeader)]
    [(objectRoute1, SnapshotObjectJSON.mk (Rpsl.Payload route1));
     (objectRoute2, SnapshotObjectJSON.mk (Rpsl.Payload route2));
     (objectGarbage, SnapshotObjectJSON.mk "garbage")]
    [(Rpsl.Payload route1, route1); (Rpsl.Payload route2, route2)].

(** The error of a store that refuses deletes. *)
Definition deleteFault : Err := lib_error "pgx" "connection refused".

(** The captured variables of the delta callback once it has seen the
    header of the delta file of version 5. *)
Definition deltaVars5 : DeltaVars := mkDeltaVars (Some header5) (sourceAt 5).

(** The captured variables of the snapshot callback once it has seen the
    header of the snapshot of version 3. *)
Definition snapshotVars3 : SnapshotVars :=
  mkSnapshotVars (Some header3) RPSLObjectList.NewRPSLObjectList 1 0 (sourceAt 0).

(** A new store, with the source as [Connect] saves it before the snapshot
    is read. *)
Definition newRepo : MemRepo.t := MemRepo.mk [sourceAt 0] [] [] None.

(** A second mirror of the same source, with a label. *)
Definition backup : NRTMSource.t :=
  NRTMSource.mk 2 "EXAMPLE" session 4 url "backup" 0.
Definition repoTwo : MemRepo.t := MemRepo.mk [sourceAt 4; backup] [] [] None.

(** The publisher: its notification file, and its delta files by version. *)
Definition publisher (version : Z) (versions : list Z) : Client :=
  Table.client (notificationOf version versions)
    [(5, ([deltaHeader5; addRoute2], deleteRoute1))].
End Ex.

(** ** The rest of the coordinator: [ListSources] and [Connect] *)

(** *** [ListSources] *)

(** [persist.NRTMSourceDetails]: a source with its notification history;
    [H] is the type of a history entry. *)
Module NRTMSourceDetails.
Record t (H : Type) : Type := mk {
  NRTMSource : NRTMSource.t;
  Notifications : list H
}.
Arguments mk {H} _ _.
Arguments NRTMSource {H} _.
Arguments Notifications {H} _.
End NRTMSourceDetails.

(** Modelled from the spec: the two reads [ListSources] makes,
    [NrtmDataService.getSources] and [Repository.GetNotificationHistory];
    they do not change the store. *)
Class SourceListing (R H : Type) : Type := {
  getSources : R -> list NRTMSource.t * error;
  GetNotificationHistory : NRTMSource.t -> Z -> Z -> R -> list H * error
}.

(** The [from] and [to] of the loop body. [src.Version - 99] is a [uint32]
    difference, assigned before the test [src.Version <= 99]. *)
Definition notificationRange (src : NRTMSource.t) : Z * Z :=
  let to := NRTMSource.Version src in
  let from := wrap32 (NRTMSource.Version src - 99) in
  let from := if NRTMSource.Version src <=? 99 then 1 else from in
  (from, to).

(** The loop of [ListSources]; [deets] is the slice built so far. *)
Fixpoint listSourcesLoop {R H} {L : SourceListing R H} (r : R)
    (sources : list NRTMSource.t) (deets : list (NRTMSourceDetails.t H))
    : list (NRTMSourceDetails.t H) * error :=
  match sources with
  | [] => (deets, None)
  | src :: rest =>
      let '(from, to) := notificationRange src in
      match GetNotificationHistory src from to r with
      | (_, Some e) => (deets, Some e)
      | (notifs, None) =>
          listSourcesLoop r rest (deets ++ [NRTMSourceDetails.mk src notifs])
      end
  end.

Definition ListSources {R H} {L : SourceListing R H} (r : R)
    : list (NRTMSourceDetails.t H) * error :=
  match getSources r with
  | (_, Some e) => ([], Some e)
  | (sources, None) => listSourcesLoop r sources []
  end.

(** *** The label pattern *)

(** Package [regexp], as far as the pattern of the service needs it:
    character classes, concatenation and [*]. [Never] and [Alt] only come up
    while matching. [MatchString] is for a pattern between [^] and [$]: the
    whole string has to match. All characters of the classes used are ASCII,
    so matching bytes is matching runes. *)
Module regexp.
Inductive t : Type :=
  | Never
  | Empty
  | Class (p : Ascii.ascii -> bool)
  | Cat (r1 r2 : t)
  | Alt (r1 r2 : t)
  | Star (r : t).

(** Whether the pattern matches the empty string. *)
Fixpoint nullable (r : t) : bool :=
  match r with
  | Never => false
  | Empty => true
  | Class _ => false
  | Cat r1 r2 => nullable r1 && nullable r2
  | Alt r1 r2 => nullable r1 || nullable r2
  | Star _ => true
  end.

(** What is left of the pattern once [c] has been read. *)
Fixpoint after (c : Ascii.ascii) (r : t) : t :=
  match r with
  | Never => Never
  | Empty => Never
  | Class p => if p c then Empty else Never
  | Cat r1 r2 =>
      if nullable r1 then Alt (Cat (after c r1) r2) (after c r2)
      else Cat (after c r1) r2
  | Alt r1 r2 => Alt (after c r1) (after c r2)
  | Star r1 => Cat (after c r1) (Star r1)
  end.

Fixpoint MatchString (r : t) (s : string) : bool :=
  match s with
  | EmptyString => nullable r
  | String c rest => MatchString (after c r) rest
  end.
End regexp.

Definition inRange (lo hi : N) (c : Ascii.ascii) : bool :=
  ((lo <=? Ascii.N_of_ascii c) && (Ascii.N_of_ascii c <=? hi))%N.

(** [[A-Za-z0-9]]: [A] is 65, [Z] 90, [a] 97, [z] 122, [0] 48 and [9] 57. *)
Definition alnum (c : Ascii.ascii) : bool :=
  inRange 65 90 c || inRange 97 122 c || inRange 48 57 c.

(** [[A-Za-z0-9 ._-]]; the space is 32, the dot 46, the underscore 95 and
    the hyphen 45. *)
Definition labelChar (c : Ascii.ascii) : bool :=
  alnum c || inRange 32 32 c || inRange 46 46 c || inRange 95 95 c
  || inRange 45 45 c.

(** [^[A-Za-z0-9 ._-]*[A-Za-z0-9][A-Za-z0-9 ._-]*$] *)
Definition labelRe : regexp.t :=
  regexp.Cat (regexp.Star (regexp.Class labelChar))
    (regexp.Cat (regexp.Class alnum) (regexp.Star (regexp.Class labelChar))).

(** The strings a pattern stands for. *)
Inductive starOf (P : string -> Prop) : string -> Prop :=
  | starOf_nil : starOf P ""
  | starOf_app s1 s2 : P s1 -> starOf P s2 -> starOf P (s1 +:+ s2).

Fixpoint denotes (r : regexp.t) (s : string) : Prop :=
  match r with
  | regexp.Never => False
  | regexp.Empty => s = ""
  | regexp.Class p => exists c, s = String c "" /\ p c = true
  | regexp.Cat r1 r2 => exists s1 s2, s = s1 +:+ s2 /\ denotes r1 s1 /\ denotes r2 s2
  | regexp.Alt r1 r2 => denotes r1 s \/ denotes r2 s
  | regexp.Star r1 => starOf (denotes r1) s
  end.

(** *** [Connect] *)

(** Modelled from the spec: what [Connect] uses besides the repository
    methods and the client: [strings.TrimSpace] and the [Error] method of an
    error (libraries), [NrtmDataService.getSourceByURLAndLabel] and
    [saveNewSource], [fileManager.ensureDirectoryExists] and
    [persist.NewNRTMSource]. *)
Class ConnectEnv (R : Type) : Type := {
  strings_TrimSpace : string -> string;
  Error : Err -> string;
  getSourceByURLAndLabel : string -> string -> R -> option NRTMSource.t;
  ensureDirectoryExists : string -> error;
  NewNRTMSource : NotificationJSON.t -> string -> string -> NRTMSource.t;
  saveNewSource : NRTMSource.t -> NotificationJSON.t -> R -> (NRTMSource.t * error) * R
}.

(** The test on the label at the top of [Connect], on the trimmed label. *)
Definition labelRefused (label : string) : bool :=
  (0 <? Z.of_nat (String.length label)) && negb (regexp.MatchString labelRe label).

(** [path] is [p.config.NRTMFilePath]. *)
Definition Connect {D : Decoders} {R : Type} {Repo : Repository R} {Cl : Client}
    {E : ConnectEnv R} (path notificationURL label : string) : M R error :=
  let label := strings_TrimSpace label in
  if labelRefused label then mret (Some (errors_New "Label is not valid"))
  else
    let '(notification, errs) := downloadNotificationFile notificationURL in
    match errs with
    | e0 :: _ => mret (Some (errors_New ("download error(s): " +:+ Error e0)))
    | [] =>
        r ← get;
        match getSourceByURLAndLabel notificationURL label r with
        | Some _ => mret (Some (errors_New "source already exists"))
        | None =>
            match ensureDirectoryExists path with
            | Some e => mret (Some e)
            | None =>
                let '(snapshotFile, err) :=
                  fetchFileAndCheckHash (NotificationJSON.SnapshotRef notification) path in
                match err with
                | Some e => mret (Some e)
                | None =>
                    let source := NewNRTMSource notification label notificationURL in
                    saved ← store (saveNewSource source notification);
                    match snd saved with
                    | Some e => mret (Some e)
                    | None =>
                        let source := fst saved in
                        err ← withVars (newSnapshotVars source)
                                (readJSONSeqRecords (fst snapshotFile) (snd snapshotFile)
                                   (snapshotObjectInsertFunc notification));
                        match err with
                        | Some io_EOF => syncDeltas path notification source
                        | _ => mret err
                        end
                    end
                end
            end
        end
    end.

(** *** The in-memory repository, continued *)

(** Modelled from the spec: the history of a source between two versions,
    as kept by [MemRepo.saveSource]. *)
Definition MemRepo_history (src : NRTMSource.t) (from to : Z) (r : MemRepo.t)
    : list NotificationJSON.t * error :=
  (List.map snd
     (List.filter (fun h => (fst h =? NRTMSource.ID src)
                            && (from <=? NotificationJSON.Version (snd h))
                            && (NotificationJSON.Version (snd h) <=? to))
        (MemRepo.history r)),
   None).

#[global] Instance MemRepo_SourceListing : SourceListing MemRepo.t NotificationJSON.t := {|
  getSources := fun r => (MemRepo.sources r, None);
  GetNotificationHistory := MemRepo_history
|}.

Definition MemRepo_lookupURL (url label : string) (r : MemRepo.t)
    : option NRTMSource.t :=
  List.find (fun s => String.eqb (NRTMSource.NotificationURL s) url
                      && String.eqb (NRTMSource.Label s) label) (MemRepo.sources r).

Definition MemRepo_saveNewSource (s : NRTMSource.t) (n : NotificationJSON.t)
    (r : MemRepo.t) : (NRTMSource.t * error) * MemRepo.t :=
  ((s, None),
   MemRepo.mk (MemRepo.sources r ++ [s]) ((NRTMSource.ID s, n) :: MemRepo.history r)
     (MemRepo.objects r) (MemRepo.deleteFault r)).

(** A stand-in for the environment of [Connect] in the closed examples:
    labels come trimmed, the directory is there, and a new source gets the
    given [id] and the version of the notification. *)
Definition Table_connectEnv (id : Z) : ConnectEnv MemRepo.t := {|
  strings_TrimSpace := fun s => s;
  Error := fun e =>
    match e with
    | errors_New msg => msg
    | lib_error _ msg => msg
    | io_EOF => "EOF"
    | _ => "error"
    end;
  getSourceByURLAndLabel := MemRepo_lookupURL;
  ensureDirectoryExists := fun _ => None;
  NewNRTMSource := fun n label url =>
    NRTMSource.mk id (NotificationJSON.Source n) (NotificationJSON.SessionID n)
      (NotificationJSON.Version n) url label 0;
  saveNewSource := MemRepo_saveNewSource
|}.

(** The publisher of the examples with its snapshot file next to the
    delta file. *)
Definition Ex_publisherWithSnapshot (version : Z) (versions : list Z)
    (snapshot : list Bytes * Bytes) : Client := {|
  downloadNotificationFile := fun _ => (Ex.notificationOf version versions, []);
  fetchFileAndCheckHash := fun ref _ =>
    if FileRefJSON.Version ref =? 3 then (snapshot, None)
    else if FileRefJSON.Version ref =? 5
    then (([Ex.deltaHeader5; Ex.addRoute2], Ex.deleteRoute1), None)
    else (([], []), Some (lib_error "http" "404 Not Found"))
|}.

(** What [ListSources] appends for one source. *)
Definition detailsOf {R H} {L : SourceListing R H} (r : R) (src : NRTMSource.t)
    : NRTMSourceDetails.t H :=
  NRTMSourceDetails.mk src
    (fst (GetNotificationHistory src (fst (notificationRange src))
            (snd (notificationRange src)) r)).

(** The history of [src] can be read. *)
Definition historyReadable {R H} {L : SourceListing R H} (r : R)
    (src : NRTMSource.t) : Prop :=
  snd (GetNotificationHistory src (fst (notificationRange src))
         (snd (notificationRange src)) r) = None.

(** Every character of [s] is in the class; some character is. *)
Fixpoint allChars (p : Ascii.ascii -> bool) (s : string) : bool :=
  match s with
  | EmptyString => true
  | String c rest => p c && allChars p rest
  end.

Fixpoint someChar (p : Ascii.ascii -> bool) (s : string) : bool :=
  match s with
  | EmptyString => false
  | String c rest => p c || someChar p rest
  end.


(** The object a snapshot record contributes, if any. *)
Definition option_objects (res : option Rpsl.t) : list Rpsl.t :=
  match res with
  | Some obj => [obj]
  | None => []
  end.

(** The first statement of [incrementCounters], on the list and on the
    counters. *)
Definition addTo (l : RPSLObjectList.t) (res : option Rpsl.t) : RPSLObjectList.t :=
  match res with
  | Some obj => RPSLObjectList.Add l obj
  | None => l
  end.

Definition counted {R} {Repo : Repository R} (res : option Rpsl.t)
    (vars : SnapshotVars) : SnapshotVars :=
  match res with
  | Some _ => incSuccessfulObjects vars
  | None => incFailedObjects vars
  end.

(** Fixtures of the examples of [Connect]: a store without sources, a
    snapshot of version 3 with two objects, and one cut off in its header. *)
Definition Ex_emptyRepo : MemRepo.t := MemRepo.mk [] [] [] None.
Definition Ex_snapshot3 : list Bytes * Bytes :=
  ([Ex.snapshotHeader3; Ex.objectRoute1], Ex.objectRoute2).
Definition Ex_brokenSnapshot : list Bytes * Bytes :=
  ([Ex.truncated; Ex.objectRoute1], Ex.objectRoute2).

(** *** The file manager: telling a gzip file by its name *)

Definition GZIP_SNAPSHOT_EXTENTION : string := ".gz".

(** The test of [readSnapshotRecords],
    [name[len(name)-len(GZIP_SNAPSHOT_EXTENTION):] == GZIP_SNAPSHOT_EXTENTION],
    on the name of the file. [None] is the slice-bounds panic of a start
    index below 0. *)
Definition hasGzipExtension (name : string) : option bool :=
  let start :=
    Z.of_nat (String.length name) - Z.of_nat (String.length GZIP_SNAPSHOT_EXTENTION) in
  if start <? 0 then None
  else
    Some (String.eqb
            (String.substring (Z.to_nat start)
               (String.length name - Z.to_nat start) name)
            GZIP_SNAPSHOT_EXTENTION).
(** * Theorems *)

(** Unfolding the monad: one step of a computation applied to a state. *)
Ltac run :=
  cbv [mbind mret M_bind M_ret bind ret get log_Fatalln deref
       store call getVars setVars withVars];
  cbn [fst snd header source snapshotHeader objectList successfulObjects
       failedObjects snapshotSource].

(** ** [validateDeltaHeader] *)

Lemma validateDeltaHeader_None file source deltaRef :
  validateDeltaHeader file source deltaRef = None ↔
    NrtmFileJSON.NrtmVersion file = 4
    ∧ NrtmFileJSON.SessionID file = NRTMSource.SessionID source
    ∧ NrtmFileJSON.Source file = NRTMSource.Source source
    ∧ NrtmFileJSON.Version file = FileRefJSON.Version deltaRef
    ∧ NRTMSource.Version source <= NrtmFileJSON.Version file.
Proof.
  unfold validateDeltaHeader.
  destruct (Z.eqb_spec (NrtmFileJSON.NrtmVersion file) 4); simpl;
    [| split; [discriminate | tauto]].
  destruct (String.eqb_spec (NrtmFileJSON.SessionID file) (NRTMSource.SessionID source));
    simpl; [| split; [discriminate | tauto]].
  destruct (String.eqb_spec (NrtmFileJSON.Source file) (NRTMSource.Source source));
    simpl; [| split; [discriminate | tauto]].
  destruct (Z.eqb_spec (NrtmFileJSON.Version file) (FileRefJSON.Version deltaRef));
    simpl; [| split; [discriminate | tauto]].
  destruct (Z.ltb_spec (NrtmFileJSON.Version file) (NRTMSource.Version source));
    split; try discriminate; try tauto; intros; try lia.
Qed.

(** When the header is rejected the callback hands the error back and has
    touched neither the store nor its captured variables. *)
Lemma applyDeltaFunc_header_rejected {D : Decoders} {R} {Repo : Repository R}
    notification deltaRef bytes deltaHeader (r : R) src e err :
  err = None ∨ err = Some io_EOF →
  json_Unmarshal_DeltaFileJSON bytes = inr deltaHeader →
  validateDeltaHeader (DeltaFileJSON.NrtmFileJSON deltaHeader) src deltaRef = Some e →
  applyDeltaFunc notification deltaRef bytes err (r, mkDeltaVars None src)
    = (Returned (Some e), (r, mkDeltaVars None src)).
Proof.
  intros [-> | ->] Hj Hv; unfold applyDeltaFunc; run; rewrite Hj, Hv; reflexivity.
Qed.

(** C8. The header of a delta file is accepted exactly when its
    [nrtmVersion] is 4, its session id and source name are those of the
    source, its version is the version of the file reference and is not
    below the version of the source. Otherwise the error is the one of the
    first condition that fails, in that order, and the callback returns it
    without calling the repository: the store and the source are as
    before. *)
Theorem validateDeltaHeader_first_violation
    {D : Decoders} {R : Type} {Repo : Repository R}
    (file : NrtmFileJSON.t) (source : NRTMSource.t) (deltaRef : FileRefJSON.t) :
  (validateDeltaHeader file source deltaRef = None ↔
     NrtmFileJSON.NrtmVersion file = 4
     ∧ NrtmFileJSON.SessionID file = NRTMSource.SessionID source
     ∧ NrtmFileJSON.Source file = NRTMSource.Source source
     ∧ NrtmFileJSON.Version file = FileRefJSON.Version deltaRef
     ∧ NRTMSource.Version source <= NrtmFileJSON.Version file)
  ∧ (NrtmFileJSON.NrtmVersion file ≠ 4 →
       validateDeltaHeader file source deltaRef = Some ErrNRTMVersionMismatch)
  ∧ (NrtmFileJSON.NrtmVersion file = 4 →
     NrtmFileJSON.SessionID file ≠ NRTMSource.SessionID source →
       validateDeltaHeader file source deltaRef = Some ErrNRTMSourceMismatch)
  ∧ (NrtmFileJSON.NrtmVersion file = 4 →
     NrtmFileJSON.SessionID file = NRTMSource.SessionID source →
     NrtmFileJSON.Source file ≠ NRTMSource.Source source →
       validateDeltaHeader file source deltaRef = Some ErrNRTMSourceNameMismatch)
  ∧ (NrtmFileJSON.NrtmVersion file = 4 →
     NrtmFileJSON.SessionID file = NRTMSource.SessionID source →
     NrtmFileJSON.Source file = NRTMSource.Source source →
     NrtmFileJSON.Version file ≠ FileRefJSON.Version deltaRef →
       validateDeltaHeader file source deltaRef = Some ErrNRTMFileVersionMismatch)
  ∧ (NrtmFileJSON.NrtmVersion file = 4 →
     NrtmFileJSON.SessionID file = NRTMSource.SessionID source →
     NrtmFileJSON.Source file = NRTMSource.Source source →
     NrtmFileJSON.Version file = FileRefJSON.Version deltaRef →
     NrtmFileJSON.Version file < NRTMSource.Version source →
       validateDeltaHeader file source deltaRef = Some ErrNRTMFileVersionInconsistency)
  ∧ (∀ notification bytes (r : R) e,
       json_Unmarshal_DeltaFileJSON bytes = inr (DeltaFileJSON.mk file) →
       validateDeltaHeader file source deltaRef = Some e →
       applyDeltaFunc notification deltaRef bytes None (r, mkDeltaVars None source)
         = (Returned (Some e), (r, mkDeltaVars None source))).
Proof.
  split; [apply validateDeltaHeader_None |].
  unfold validateDeltaHeader.
  repeat split; intros.
  - destruct (Z.eqb_spec (NrtmFileJSON.NrtmVersion file) 4); [contradiction | reflexivity].
  - rewrite (proj2 (Z.eqb_eq _ _) H). simpl.
    rewrite (proj2 (String.eqb_neq _ _) H0). reflexivity.
  - rewrite (proj2 (Z.eqb_eq _ _) H), (proj2 (String.eqb_eq _ _) H0). simpl.
    rewrite (proj2 (String.eqb_neq _ _) H1). reflexivity.
  - rewrite (proj2 (Z.eqb_eq _ _) H), (proj2 (String.eqb_eq _ _) H0),
      (proj2 (String.eqb_eq _ _) H1). simpl.
    rewrite (proj2 (Z.eqb_neq _ _) H2). reflexivity.
  - rewrite (proj2 (Z.eqb_eq _ _) H), (proj2 (String.eqb_eq _ _) H0),
      (proj2 (String.eqb_eq _ _) H1), (proj2 (Z.eqb_eq _ _) H2). simpl.
    rewrite (proj2 (Z.ltb_lt _ _) H3). reflexivity.
  - eapply applyDeltaFunc_header_rejected; eauto.
Qed.

(** ** [RPSLObjectList] *)

Lemma Add_all (xs : list Rpsl.t) (l : RPSLObjectList.t) :
  RPSLObjectList.objects (fold_left RPSLObjectList.Add xs l)
    = RPSLObjectList.objects l ++ xs.
Proof.
  revert l; induction xs as [| x xs IH]; intros l; simpl.
  - now rewrite app_nil_r.
  - rewrite IH. simpl. now rewrite <- app_assoc.
Qed.

(** C10. For a batch size [size >= 0]: with fewer than [size] objects
    buffered [GetBatch] returns the empty slice and leaves the buffer as it
    is; otherwise it returns the first [size] objects, in the order they were
    added, and the buffer keeps exactly the others; [GetAll] returns the
    whole buffer and leaves it empty. Objects are buffered in the order of
    the calls of [Add]. *)
Theorem GetBatch_GetAll_spec (l : RPSLObjectList.t) (size : Z) :
  0 <= size →
  (Z.of_nat (length (RPSLObjectList.objects l)) < size →
     RPSLObjectList.GetBatch l size = Some ([], l))
  ∧ (size <= Z.of_nat (length (RPSLObjectList.objects l)) →
     ∃ batch rest,
       RPSLObjectList.objects l = batch ++ rest
       ∧ Z.of_nat (length batch) = size
       ∧ RPSLObjectList.GetBatch l size = Some (batch, RPSLObjectList.mk rest))
  ∧ RPSLObjectList.GetAll l = (RPSLObjectList.objects l, RPSLObjectList.mk [])
  ∧ (∀ xs, RPSLObjectList.objects (fold_left RPSLObjectList.Add xs l)
             = RPSLObjectList.objects l ++ xs).
Proof.
  intros Hsize. unfold RPSLObjectList.GetBatch. repeat split.
  - intros Hlt.
    destruct (Z.geb_spec (Z.of_nat (length (RPSLObjectList.objects l))) size); [lia |].
    reflexivity.
  - intros Hle.
    exists (take (Z.to_nat size) (RPSLObjectList.objects l)),
           (drop (Z.to_nat size) (RPSLObjectList.objects l)).
    split; [now rewrite take_drop |].
    split; [rewrite length_take; lia |].
    destruct (Z.geb_spec (Z.of_nat (length (RPSLObjectList.objects l))) size); [| lia].
    destruct (Z.ltb_spec size 0); [lia | reflexivity].
  - intros xs. apply Add_all.
Qed.

Lemma GetBatch_GetAll_spec_witness :
  0 <= 2
  ∧ RPSLObjectList.GetBatch
      (RPSLObjectList.mk [Rpsl.mk "route" "a" ""; Rpsl.mk "route" "b" "";
                          Rpsl.mk "route" "c" ""]) 2
    = Some ([Rpsl.mk "route" "a" ""; Rpsl.mk "route" "b" ""],
            RPSLObjectList.mk [Rpsl.mk "route" "c" ""]).
Proof.
  split; [lia |].
  destruct (GetBatch_GetAll_spec
              (RPSLObjectList.mk [Rpsl.mk "route" "a" ""; Rpsl.mk "route" "b" "";
                                  Rpsl.mk "route" "c" ""]) 2 ltac:(lia))
    as (_ & _ & _ & _).
  reflexivity.
Defined.

(** A negative size passes the guard and the slice expression panics. *)
Lemma GetBatch_negative_size l size :
  size < 0 → RPSLObjectList.GetBatch l size = None.
Proof.
  intros H. unfold RPSLObjectList.GetBatch.
  destruct (Z.geb_spec (Z.of_nat (length (RPSLObjectList.objects l))) size); [| lia].
  destruct (Z.ltb_spec size 0); [reflexivity | lia].
Qed.

(** ** [findUpdates] *)

(** *** The duplicate check *)

Lemma size_NewSet_le (l : list Z) : (size (NewSet l) ≤ length l)%nat.
Proof.
  unfold NewSet. induction l as [| x l IH].
  - rewrite list_to_set_nil, size_empty. reflexivity.
  - rewrite list_to_set_cons, size_union_alt, size_singleton.
    assert (list_to_set l ∖ {[x]} ⊆ (list_to_set l : gset Z)) as Hsub by set_solver.
    apply subseteq_size in Hsub. simpl length. lia.
Qed.

Lemma size_NewSet_NoDup (l : list Z) :
  size (NewSet l) = length l ↔ NoDup l.
Proof.
  split; [| apply size_list_to_set].
  induction l as [| x l IH]; intros Hsz; [constructor |].
  destruct (decide (x ∈ l)) as [Hin | Hnin].
  - exfalso. pose proof (size_NewSet_le l) as Hle.
    assert (NewSet (x :: l) = NewSet l) as Heq
      by (unfold NewSet; rewrite list_to_set_cons; apply leibniz_equiv; set_solver).
    rewrite Heq in Hsz. simpl in Hsz. lia.
  - apply NoDup_cons. split; [assumption |]. apply IH.
    unfold NewSet in *. rewrite list_to_set_cons in Hsz.
    rewrite size_union in Hsz by set_solver.
    rewrite size_singleton in Hsz. simpl in Hsz. lia.
Qed.

Lemma duplicate_check_true (l : list Z) :
  NoDup l → negb (Nat.eqb (size (NewSet l)) (length l)) = false.
Proof.
  intros H. apply size_NewSet_NoDup in H. rewrite H, Nat.eqb_refl. reflexivity.
Qed.

Lemma duplicate_check_false (l : list Z) :
  ¬ NoDup l → negb (Nat.eqb (size (NewSet l)) (length l)) = true.
Proof.
  intros H. destruct (Nat.eqb_spec (size (NewSet l)) (length l)) as [Heq |];
    [| reflexivity].
  apply size_NewSet_NoDup in Heq. contradiction.
Qed.

(** *** Sorting, and the least and greatest version *)

Lemma sortVersions_Permutation l : sortVersions l ≡ₚ l.
Proof. apply merge_sort_Permutation. Qed.

Lemma sortVersions_Sorted l : StronglySorted Z.le (sortVersions l).
Proof. apply StronglySorted_merge_sort; apply _. Qed.

Lemma sortVersions_length l : length (sortVersions l) = length l.
Proof. apply Permutation_length, sortVersions_Permutation. Qed.

Lemma minOf_spec (l : list Z) :
  l ≠ [] → minOf l ∈ l ∧ Forall (Z.le (minOf l)) l.
Proof.
  destruct l as [| a l]; [congruence | intros _].
  unfold minOf. simpl List.hd.
  assert (∀ k : list Z, (foldr Z.min a k = a ∨ foldr Z.min a k ∈ k)
                        ∧ foldr Z.min a k <= a
                        ∧ Forall (Z.le (foldr Z.min a k)) k) as Hgen.
  { induction k as [| x k (Hin & Hle & Hall)]; simpl.
    - split; [now left |]. split; [lia | constructor].
    - split; [| split].
      + destruct (Z.min_spec x (foldr Z.min a k)) as [[_ ->] | [_ ->]].
        * right. left.
        * destruct Hin as [-> | Hin]; [now left | right; now right].
      + lia.
      + constructor; [lia |].
        eapply Forall_impl; [exact Hall | intros y Hy; simpl in Hy; lia]. }
  destruct (Hgen (a :: l)) as (Hin & _ & Hall).
  split; [| exact Hall].
  destruct Hin as [-> | Hin]; [left | exact Hin].
Qed.

Lemma maxOf_spec (l : list Z) :
  l ≠ [] → maxOf l ∈ l ∧ Forall (fun x => x <= maxOf l) l.
Proof.
  destruct l as [| a l]; [congruence | intros _].
  unfold maxOf. simpl List.hd.
  assert (∀ k : list Z, (foldr Z.max a k = a ∨ foldr Z.max a k ∈ k)
                        ∧ a <= foldr Z.max a k
                        ∧ Forall (fun x => x <= foldr Z.max a k) k) as Hgen.
  { induction k as [| x k (Hin & Hle & Hall)]; simpl.
    - split; [now left |]. split; [lia | constructor].
    - split; [| split].
      + destruct (Z.max_spec x (foldr Z.max a k)) as [[_ ->] | [_ ->]].
        * destruct Hin as [-> | Hin]; [now left | right; now right].
        * right. left.
      + lia.
      + constructor; [lia |].
        eapply Forall_impl; [exact Hall | intros y Hy; simpl in Hy; lia]. }
  destruct (Hgen (a :: l)) as (Hin & _ & Hall).
  split; [| exact Hall].
  destruct Hin as [-> | Hin]; [left | exact Hin].
Qed.

(** The first element of the sorted slice is the least version. *)
Lemma sorted_first_minOf (l : list Z) :
  l ≠ [] → List.nth 0 (sortVersions l) 0 = minOf l.
Proof.
  intros Hne.
  pose proof (sortVersions_Permutation l) as Hperm.
  pose proof (sortVersions_Sorted l) as Hsorted.
  destruct (minOf_spec l Hne) as (Hin & Hall).
  remember (minOf l) as m eqn:Hm. clear Hm.
  destruct (sortVersions l) as [| s0 s] eqn:Hs.
  { apply Permutation_nil_l in Hperm. congruence. }
  simpl. apply StronglySorted_inv in Hsorted as (_ & Hhd).
  assert (s0 ∈ l) as Hs0 by (rewrite <- Hperm; left).
  rewrite Forall_forall in Hall. specialize (Hall _ Hs0).
  rewrite <- Hperm in Hin. apply elem_of_cons in Hin as [Heq | Hin]; [congruence |].
  rewrite Forall_forall in Hhd. specialize (Hhd _ Hin). lia.
Qed.

Lemma StronglySorted_le_last (s : list Z) (x : Z) :
  StronglySorted Z.le s → x ∈ s → x <= List.nth (length s - 1) s 0.
Proof.
  revert x. induction s as [| a s IH]; intros x Hs Hx; [inversion Hx |].
  apply StronglySorted_inv in Hs as (Hs & Hhd).
  destruct s as [| b s].
  - apply list_elem_of_singleton in Hx. subst. simpl. lia.
  - replace (length (a :: b :: s) - 1)%nat with (S (length (b :: s) - 1))
      by (simpl; lia).
    change (x <= List.nth (length (b :: s) - 1) (b :: s) 0).
    apply elem_of_cons in Hx as [-> | Hx]; [| now apply IH].
    rewrite Forall_forall in Hhd.
    assert (b <= List.nth (length (b :: s) - 1) (b :: s) 0)
      by (apply IH; [assumption | left]).
    specialize (Hhd b ltac:(left)). lia.
Qed.

Lemma nth_last_elem_of (s : list Z) :
  s ≠ [] → List.nth (length s - 1) s 0 ∈ s.
Proof.
  intros Hne. apply list_elem_of_In, nth_In.
  destruct s; [congruence | simpl; lia].
Qed.

(** The last element of the sorted slice is the greatest version. *)
Lemma sorted_last_maxOf (l : list Z) :
  l ≠ [] →
  List.nth (length (sortVersions l) - 1) (sortVersions l) 0 = maxOf l.
Proof.
  intros Hne.
  pose proof (sortVersions_Permutation l) as Hperm.
  pose proof (sortVersions_Sorted l) as Hsorted.
  destruct (maxOf_spec l Hne) as (Hin & Hall).
  remember (maxOf l) as m eqn:Hm. clear Hm.
  remember (sortVersions l) as s eqn:Hs. clear Hs.
  assert (s ≠ []) as Hsne.
  { intros Heq. subst s. apply Permutation_nil_l in Hperm. congruence. }
  pose proof (nth_last_elem_of _ Hsne) as Hlast.
  remember (List.nth (length s - 1) s 0) as z eqn:Hz.
  rewrite Hperm in Hlast.
  rewrite Forall_forall in Hall. specialize (Hall _ Hlast).
  rewrite <- Hperm in Hin.
  pose proof (StronglySorted_le_last _ _ Hsorted Hin). subst z. lia.
Qed.

(** *** The contiguity loop *)

Lemma wrap32_small z : 0 <= z <= u32_max → wrap32 z = z.
Proof. unfold wrap32, u32_max. intros H. apply Z.mod_small. lia. Qed.

Lemma StronglySorted_le_NoDup_lt (s : list Z) :
  StronglySorted Z.le s → NoDup s → StronglySorted Z.lt s.
Proof.
  induction 1 as [| a s Hs IH Hhd]; intros Hnd; constructor.
  - apply IH. now apply NoDup_cons in Hnd as (_ & ?).
  - apply NoDup_cons in Hnd as (Hnin & _).
    rewrite Forall_forall in *. intros x Hx.
    specialize (Hhd x Hx).
    assert (a ≠ x) by (intros ->; contradiction). lia.
Qed.

Lemma StronglySorted_lt_seqZ (n : nat) (m : Z) :
  StronglySorted Z.lt (seqZ m (Z.of_nat n)).
Proof.
  revert m. induction n as [| n IH]; intros m.
  - rewrite seqZ_nil by lia. constructor.
  - rewrite seqZ_cons by lia.
    replace (Z.pred (Z.of_nat (S n))) with (Z.of_nat n) by lia.
    constructor; [apply IH |].
    apply Forall_seqZ. intros; lia.
Qed.

Lemma StronglySorted_lt_le (s : list Z) :
  StronglySorted Z.lt s → StronglySorted Z.le s.
Proof.
  induction 1 as [| a s Hs IH Hhd]; constructor; [assumption |].
  eapply Forall_impl; [exact Hhd | intros; simpl in *; lia].
Qed.

(** On an ascending slice of distinct [uint32] values the loop finds no gap
    exactly when the slice counts up from its first element. *)
Lemma contiguous_true_seqZ (s : list Z) :
  Forall is_u32 s → StronglySorted Z.lt s → contiguous s = true →
  s = seqZ (List.hd 0 s) (Z.of_nat (length s)).
Proof.
  induction s as [| a s IH]; intros Hu Hs Hc; [reflexivity |].
  destruct s as [| b t].
  - simpl. rewrite seqZ_cons by lia. rewrite seqZ_nil by lia. reflexivity.
  - apply Forall_cons in Hu as (Ha & Hu).
    apply StronglySorted_inv in Hs as (Hs & Hhd).
    pose proof Hu as Hu'. apply Forall_cons in Hu' as (Hb & _).
    assert (a < b) as Hab by (rewrite Forall_forall in Hhd; apply Hhd; left).
    unfold is_u32 in Ha, Hb.
    change (contiguous (a :: b :: t))
      with (if wrap32 (a + 1) =? b then contiguous (b :: t) else false) in Hc.
    rewrite wrap32_small in Hc by lia.
    destruct (Z.eqb_spec (a + 1) b) as [Heq | Hneq]; [| discriminate].
    specialize (IH Hu Hs Hc).
    rewrite seqZ_cons by (simpl length; lia).
    simpl List.hd in *. f_equal.
    replace (Z.succ a) with b by lia.
    replace (Z.pred (Z.of_nat (length (a :: b :: t))))
      with (Z.of_nat (length (b :: t))) by (simpl length; lia).
    exact IH.
Qed.

Lemma seqZ_contiguous (n : nat) (m : Z) :
  Forall is_u32 (seqZ m (Z.of_nat n)) → contiguous (seqZ m (Z.of_nat n)) = true.
Proof.
  revert m. induction n as [| n IH]; intros m Hu.
  - rewrite seqZ_nil by lia. reflexivity.
  - rewrite seqZ_cons in * by lia.
    replace (Z.pred (Z.of_nat (S n))) with (Z.of_nat n) in * by lia.
    apply Forall_cons in Hu as (Hm & Hu).
    specialize (IH _ Hu).
    destruct n as [| n].
    + rewrite seqZ_nil by lia. reflexivity.
    + rewrite seqZ_cons in * by lia.
      apply Forall_cons in Hu as (Hm' & _). unfold is_u32 in Hm, Hm'.
      change (contiguous (m :: Z.succ m :: ?t))
        with (if wrap32 (m + 1) =? Z.succ m then contiguous (Z.succ m :: t) else false).
      rewrite wrap32_small by lia.
      replace (m + 1 =? Z.succ m) with true by (symmetry; apply Z.eqb_eq; lia).
      exact IH.
Qed.

(** The loop over the sorted versions against the order-free notion. *)
Lemma contiguous_sortVersions (vs : list Z) :
  vs ≠ [] → NoDup vs → Forall is_u32 vs →
  (contiguous (sortVersions vs) = true ↔ strictlyContiguous vs).
Proof.
  intros Hne Hnd Hu.
  pose proof (sortVersions_Permutation vs) as Hperm.
  pose proof (sortVersions_Sorted vs) as Hle.
  pose proof (sorted_first_minOf vs Hne) as Hmin.
  pose proof (sortVersions_length vs) as Hlen.
  assert (NoDup (sortVersions vs)) as Hnd' by now rewrite Hperm.
  assert (Forall is_u32 (sortVersions vs)) as Hu' by now rewrite Hperm.
  pose proof (StronglySorted_le_NoDup_lt _ Hle Hnd') as Hlt.
  assert (List.hd 0 (sortVersions vs) = minOf vs) as Hhd.
  { rewrite <- Hmin. now destruct (sortVersions vs). }
  unfold strictlyContiguous. split.
  - intros Hc. apply contiguous_true_seqZ in Hc; [| assumption..].
    rewrite Hhd, Hlen in Hc. rewrite <- Hc. now symmetry.
  - intros Hp.
    assert (sortVersions vs = seqZ (minOf vs) (Z.of_nat (length vs))) as Heq.
    { apply (StronglySorted_unique Z.le); [assumption | |].
      - apply StronglySorted_lt_le, StronglySorted_lt_seqZ.
      - now rewrite Hperm. }
    rewrite Heq. apply seqZ_contiguous. now rewrite <- Heq.
Qed.

(** *** The checks in order *)

(** [findUpdates] on a notification that lists at least one delta. *)
Lemma findUpdates_some notification source refs :
  NotificationJSON.DeltaRefs notification = Some refs → refs ≠ [] →
  findUpdates notification source =
    if negb (Nat.eqb (size (NewSet (List.map FileRefJSON.Version refs)))
                     (length (List.map FileRefJSON.Version refs))) then
      ([], Some ErrNRTMDuplicateDeltaVersion)
    else if negb (List.nth (length (sortVersions (List.map FileRefJSON.Version refs)) - 1)
                    (sortVersions (List.map FileRefJSON.Version refs)) 0
                  =? NotificationJSON.Version notification) then
      ([], Some ErrNRTMNotificationVersionDoesNotMatchDelta)
    else if negb (contiguous (sortVersions (List.map FileRefJSON.Version refs))) then
      ([], Some ErrNRTMNotificationDeltaSequenceBroken)
    else if wrap32 (NRTMSource.Version source + 1)
            <? List.nth 0 (sortVersions (List.map FileRefJSON.Version refs)) 0 then
      ([], Some ErrNextConsecutiveDeltaUnavaliable)
    else
      (List.filter (fun deltaRef =>
         NRTMSource.Version source <? FileRefJSON.Version deltaRef) refs, None).
Proof.
  intros Href Hne. unfold findUpdates. rewrite Href.
  destruct refs; [congruence | reflexivity].
Qed.

Lemma versions_nonempty (refs : list FileRefJSON.t) :
  refs ≠ [] → List.map FileRefJSON.Version refs ≠ [].
Proof. destruct refs; [congruence | discriminate]. Qed.

Lemma versions_u32 (refs : list FileRefJSON.t) :
  Forall (fun r => is_u32 (FileRefJSON.Version r)) refs →
  Forall is_u32 (List.map FileRefJSON.Version refs).
Proof. induction 1; simpl; constructor; assumption. Qed.

(** [findUpdates] after the first four checks have passed. *)
Lemma findUpdates_checked notification source refs :
  NotificationJSON.DeltaRefs notification = Some refs → refs ≠ [] →
  Forall (fun r => is_u32 (FileRefJSON.Version r)) refs →
  NoDup (List.map FileRefJSON.Version refs) →
  maxOf (List.map FileRefJSON.Version refs) = NotificationJSON.Version notification →
  strictlyContiguous (List.map FileRefJSON.Version refs) →
  findUpdates notification source =
    if wrap32 (NRTMSource.Version source + 1)
       <? minOf (List.map FileRefJSON.Version refs) then
      ([], Some ErrNextConsecutiveDeltaUnavaliable)
    else
      (List.filter (fun deltaRef =>
         NRTMSource.Version source <? FileRefJSON.Version deltaRef) refs, None).
Proof.
  intros Href Hne Hu Hnd Hmax Hc.
  pose proof (versions_nonempty _ Hne) as Hvne.
  rewrite (findUpdates_some _ _ _ Href Hne).
  rewrite (duplicate_check_true _ Hnd).
  rewrite (sorted_last_maxOf _ Hvne), Hmax, Z.eqb_refl. simpl negb.
  rewrite (proj2 (contiguous_sortVersions _ Hvne Hnd (versions_u32 _ Hu)) Hc).
  simpl negb. rewrite (sorted_first_minOf _ Hvne). reflexivity.
Qed.

(** C3. [findUpdates] returns the error of the first check that fails, in
    the order of the source: no delta listed; a version listed twice; the
    greatest version is not the notification's; the versions do not count
    up one by one; the version after the source's is below the least one.
    When the version after the source's is the least listed one it
    succeeds. The sum [source.Version + 1] is a [uint32] sum in the source:
    the last two items give the outcome for the wrapped value, which decides
    every remaining case. *)
Theorem findUpdates_first_failing_check
    (notification : NotificationJSON.t) (source : NRTMSource.t) :
  is_u32 (NRTMSource.Version source) →
  (NotificationJSON.DeltaRefs notification = None
   ∨ NotificationJSON.DeltaRefs notification = Some [] →
     findUpdates notification source = ([], Some ErrNRTMNoDeltasInNotification))
  ∧ (∀ refs,
       NotificationJSON.DeltaRefs notification = Some refs → refs ≠ [] →
       Forall (fun r => is_u32 (FileRefJSON.Version r)) refs →
       (¬ NoDup (List.map FileRefJSON.Version refs) →
          findUpdates notification source = ([], Some ErrNRTMDuplicateDeltaVersion))
       ∧ (NoDup (List.map FileRefJSON.Version refs) →
          (maxOf (List.map FileRefJSON.Version refs)
             ≠ NotificationJSON.Version notification →
             findUpdates notification source
               = ([], Some ErrNRTMNotificationVersionDoesNotMatchDelta))
          ∧ (maxOf (List.map FileRefJSON.Version refs)
               = NotificationJSON.Version notification →
             (¬ strictlyContiguous (List.map FileRefJSON.Version refs) →
                findUpdates notification source
                  = ([], Some ErrNRTMNotificationDeltaSequenceBroken))
             ∧ (strictlyContiguous (List.map FileRefJSON.Version refs) →
                (NRTMSource.Version source + 1
                   < minOf (List.map FileRefJSON.Version refs) →
                   findUpdates notification source
                     = ([], Some ErrNextConsecutiveDeltaUnavaliable))
                ∧ (NRTMSource.Version source + 1
                     = minOf (List.map FileRefJSON.Version refs) →
                   snd (findUpdates notification source) = None)
                ∧ (wrap32 (NRTMSource.Version source + 1)
                     < minOf (List.map FileRefJSON.Version refs) →
                   findUpdates notification source
                     = ([], Some ErrNextConsecutiveDeltaUnavaliable))
                ∧ (minOf (List.map FileRefJSON.Version refs)
                     <= wrap32 (NRTMSource.Version source + 1) →
                   snd (findUpdates notification source) = None))))).
Proof.
  intros HS. split.
  { intros [H | H]; unfold findUpdates; rewrite H; reflexivity. }
  intros refs Href Hne Hu.
  pose proof (versions_nonempty _ Hne) as Hvne.
  split.
  { intros Hdup. rewrite (findUpdates_some _ _ _ Href Hne).
    now rewrite (duplicate_check_false _ Hdup). }
  intros Hnd. split.
  { intros Hmax. rewrite (findUpdates_some _ _ _ Href Hne).
    rewrite (duplicate_check_true _ Hnd), (sorted_last_maxOf _ Hvne).
    now rewrite (proj2 (Z.eqb_neq _ _) Hmax). }
  intros Hmax. split.
  { intros Hnc. rewrite (findUpdates_some _ _ _ Href Hne).
    rewrite (duplicate_check_true _ Hnd), (sorted_last_maxOf _ Hvne), Hmax, Z.eqb_refl.
    simpl negb.
    destruct (contiguous (sortVersions (List.map FileRefJSON.Version refs))) eqn:Hc;
      [| reflexivity].
    apply (contiguous_sortVersions _ Hvne Hnd (versions_u32 _ Hu)) in Hc.
    contradiction. }
  intros Hc.
  rewrite (findUpdates_checked _ _ _ Href Hne Hu Hnd Hmax Hc).
  destruct (minOf_spec _ Hvne) as (Hmin & _).
  assert (is_u32 (minOf (List.map FileRefJSON.Version refs))) as Hlo.
  { pose proof (versions_u32 _ Hu) as Hall. rewrite Forall_forall in Hall. auto. }
  unfold is_u32 in HS, Hlo.
  repeat split.
  - intros Hlt. rewrite wrap32_small by lia.
    now rewrite (proj2 (Z.ltb_lt _ _) Hlt).
  - intros Heq. rewrite wrap32_small by lia.
    rewrite (proj2 (Z.ltb_ge _ _)) by lia. reflexivity.
  - intros Hlt. now rewrite (proj2 (Z.ltb_lt _ _) Hlt).
  - intros Hge. rewrite (proj2 (Z.ltb_ge _ _)) by lia. reflexivity.
Qed.

Lemma findUpdates_first_failing_check_witness :
  is_u32 (NRTMSource.Version (Ex.sourceAt 4))
  ∧ snd (findUpdates (Ex.notificationOf 6 [5; 6]) (Ex.sourceAt 4)) = None.
Proof.
  assert (is_u32 (NRTMSource.Version (Ex.sourceAt 4))) as Hu
    by (unfold is_u32, u32_max; simpl; lia).
  split; [exact Hu |].
  destruct (findUpdates_first_failing_check (Ex.notificationOf 6 [5; 6])
              (Ex.sourceAt 4) Hu) as [_ Hsome].
  destruct (Hsome (List.map Ex.ref [5; 6]) eq_refl) as [_ Hnodup].
  - discriminate.
  - repeat constructor; unfold is_u32, u32_max; simpl; lia.
  - destruct Hnodup as [_ Hmax].
    + simpl. apply (bool_decide_unpack _). vm_compute. reflexivity.
    + destruct (Hmax eq_refl) as [_ Hcont].
      destruct Hcont as (_ & Hnext & _).
      * unfold strictlyContiguous. simpl. vm_compute seqZ. reflexivity.
      * apply Hnext. reflexivity.
Defined.

(** The scenarios of the specification, run. *)
Example findUpdates_scenarios :
  findUpdates (Ex.notificationOf 350685 [350685]) (Ex.sourceAt 350684)
    = ([Ex.ref 350685], None)
  ∧ findUpdates (Ex.notificationOf 350200 [350194; 350195; 350196; 350197;
                                           350198; 350199; 350200])
      (Ex.sourceAt 350192)
    = ([], Some ErrNextConsecutiveDeltaUnavaliable)
  ∧ findUpdates (Ex.notificationOf 14 [10; 11; 13; 14]) (Ex.sourceAt 9)
    = ([], Some ErrNRTMNotificationDeltaSequenceBroken)
  ∧ findUpdates (Ex.notificationOf 13 [10; 11; 12]) (Ex.sourceAt 9)
    = ([], Some ErrNRTMNotificationVersionDoesNotMatchDelta)
  ∧ findUpdates (Ex.notificationOf 8 [6; 7; 7; 8]) (Ex.sourceAt 5)
    = ([], Some ErrNRTMDuplicateDeltaVersion)
  ∧ findUpdates (Ex.notificationOf 8 []) (Ex.sourceAt 5)
    = ([], Some ErrNRTMNoDeltasInNotification).
Proof. repeat split; vm_compute; reflexivity. Qed.

(** At the greatest [uint32] the sum wraps to 0, which is below every
    listed version but 0. *)
Example findUpdates_wraps :
  findUpdates (Ex.notificationOf 7 [6; 7]) (Ex.sourceAt 4294967295)
    = ([], Some ErrNextConsecutiveDeltaUnavaliable).
Proof. vm_compute. reflexivity. Qed.

(** *** The returned references *)

Lemma duplicate_check_inv (l : list Z) :
  negb (Nat.eqb (size (NewSet l)) (length l)) = false → NoDup l.
Proof.
  intros H. apply size_NewSet_NoDup.
  destruct (Nat.eqb_spec (size (NewSet l)) (length l)); [assumption | discriminate].
Qed.

Lemma NoDup_map_filter {A} (f : A → Z) (p : A → bool) (l : list A) :
  NoDup (List.map f l) → NoDup (List.map f (List.filter p l)).
Proof.
  induction l as [| x l IH]; simpl; intros Hnd; [constructor |].
  apply NoDup_cons in Hnd as (Hnin & Hnd).
  destruct (p x); [| now apply IH].
  simpl. apply NoDup_cons. split; [| now apply IH].
  intros Hin. apply Hnin.
  apply list_elem_of_In, in_map_iff in Hin as (y & Hy & Hin).
  apply filter_In in Hin as (Hin & _).
  apply list_elem_of_In, in_map_iff. eauto.
Qed.

Lemma StronglySorted_map_filter {A} (f : A → Z) (p : A → bool) (l : list A) :
  StronglySorted Z.lt (List.map f l) →
  StronglySorted Z.lt (List.map f (List.filter p l)).
Proof.
  induction l as [| x l IH]; simpl; intros Hs; [constructor |].
  apply StronglySorted_inv in Hs as (Hs & Hhd).
  destruct (p x); [| now apply IH].
  simpl. constructor; [now apply IH |].
  rewrite Forall_forall in *. intros y Hy. apply Hhd.
  apply list_elem_of_In, in_map_iff in Hy as (z & Hz & Hin).
  apply filter_In in Hin as (Hin & _).
  apply list_elem_of_In, in_map_iff. eauto.
Qed.

Lemma sortFileRefs_Permutation l : sortFileRefs l ≡ₚ l.
Proof. apply merge_sort_Permutation. Qed.

Lemma StronglySorted_versions (l : list FileRefJSON.t) :
  StronglySorted fileRefsByVersion l →
  StronglySorted Z.le (List.map FileRefJSON.Version l).
Proof.
  induction 1 as [| a l Hs IH Hhd]; simpl; constructor; [assumption |].
  rewrite Forall_forall in Hhd. apply Forall_forall. intros v Hv.
  apply list_elem_of_In, in_map_iff in Hv as (r & <- & Hr).
  apply Hhd. now apply list_elem_of_In.
Qed.

(** Sorting references with distinct versions puts the versions in strictly
    ascending order. *)
Lemma sortFileRefs_ascending l :
  NoDup (List.map FileRefJSON.Version l) →
  StronglySorted Z.lt (List.map FileRefJSON.Version (sortFileRefs l)).
Proof.
  intros Hnd. apply StronglySorted_le_NoDup_lt.
  - apply StronglySorted_versions, StronglySorted_merge_sort; apply _.
  - assert (List.map FileRefJSON.Version (sortFileRefs l)
              ≡ₚ List.map FileRefJSON.Version l) as Hperm
      by apply Permutation_map, sortFileRefs_Permutation.
    now rewrite Hperm.
Qed.

(** C4, as it holds. When [findUpdates] succeeds, the references it returns
    are exactly those of the notification with a version above the source's,
    in the order the notification lists them; their versions are pairwise
    distinct, above the source's and at most the notification's. They are in
    strictly ascending order when the notification lists its deltas so, and
    in any case after [syncDeltas] has sorted them. *)
Theorem findUpdates_returns_newer_refs
    (notification : NotificationJSON.t) (source : NRTMSource.t)
    (deltaRefs : list FileRefJSON.t) :
  findUpdates notification source = (deltaRefs, None) →
  ∃ refs,
    NotificationJSON.DeltaRefs notification = Some refs
    ∧ deltaRefs = List.filter (fun r =>
        NRTMSource.Version source <? FileRefJSON.Version r) refs
    ∧ Forall (fun r => NRTMSource.Version source < FileRefJSON.Version r
                       <= NotificationJSON.Version notification) deltaRefs
    ∧ NoDup (List.map FileRefJSON.Version deltaRefs)
    ∧ (StronglySorted Z.lt (List.map FileRefJSON.Version refs) →
       StronglySorted Z.lt (List.map FileRefJSON.Version deltaRefs))
    ∧ sortFileRefs deltaRefs ≡ₚ deltaRefs
    ∧ StronglySorted Z.lt (List.map FileRefJSON.Version (sortFileRefs deltaRefs)).
Proof.
  intros Hres.
  destruct (NotificationJSON.DeltaRefs notification) as [refs |] eqn:Href;
    [| unfold findUpdates in Hres; rewrite Href in Hres; discriminate].
  destruct (decide (refs = [])) as [-> | Hne];
    [unfold findUpdates in Hres; rewrite Href in Hres; discriminate |].
  exists refs. split; [reflexivity |].
  pose proof (versions_nonempty _ Hne) as Hvne.
  rewrite (findUpdates_some _ _ _ Href Hne) in Hres.
  destruct (negb (Nat.eqb _ _)) eqn:Hdup in Hres; [discriminate |].
  apply duplicate_check_inv in Hdup.
  rewrite (sorted_last_maxOf _ Hvne) in Hres.
  destruct (Z.eqb_spec (maxOf (List.map FileRefJSON.Version refs))
              (NotificationJSON.Version notification)) as [Hmax |];
    [| discriminate].
  simpl negb in Hres.
  destruct (negb (contiguous _)) in Hres; [discriminate |].
  destruct (_ <? _) in Hres; [discriminate |].
  injection Hres as <-.
  assert (NoDup (List.map FileRefJSON.Version
            (List.filter (fun r => NRTMSource.Version source <? FileRefJSON.Version r)
               refs))) as Hnd by now apply NoDup_map_filter.
  split; [reflexivity |]. split; [| split; [exact Hnd | split; [| split]]].
  - apply Forall_forall. intros r Hr.
    apply list_elem_of_In, filter_In in Hr as (Hin & Hgt).
    apply Z.ltb_lt in Hgt. split; [exact Hgt |].
    rewrite <- Hmax.
    destruct (maxOf_spec _ Hvne) as (_ & Hall). rewrite Forall_forall in Hall.
    apply Hall, list_elem_of_In, in_map, Hin.
  - apply StronglySorted_map_filter.
  - apply sortFileRefs_Permutation.
  - now apply sortFileRefs_ascending.
Qed.

Lemma findUpdates_returns_newer_refs_witness :
  findUpdates (Ex.notificationOf 6 [6; 5]) (Ex.sourceAt 4)
    = ([Ex.ref 6; Ex.ref 5], None)
  ∧ StronglySorted Z.lt
      (List.map FileRefJSON.Version (sortFileRefs [Ex.ref 6; Ex.ref 5])).
Proof.
  assert (findUpdates (Ex.notificationOf 6 [6; 5]) (Ex.sourceAt 4)
            = ([Ex.ref 6; Ex.ref 5], None)) as Hrun by (vm_compute; reflexivity).
  split; [exact Hrun |].
  destruct (findUpdates_returns_newer_refs _ _ _ Hrun) as (refs & _ & _ & _ & _ & _ & _ & H).
  exact H.
Defined.

(** C4, as stated, fails: the notification may list its deltas in any
    order, and [findUpdates] keeps that order. *)
Lemma findUpdates_keeps_listed_order :
  findUpdates (Ex.notificationOf 6 [6; 5]) (Ex.sourceAt 4)
    = ([Ex.ref 6; Ex.ref 5], None)
  ∧ ¬ StronglySorted Z.lt
        (List.map FileRefJSON.Version
           (fst (findUpdates (Ex.notificationOf 6 [6; 5]) (Ex.sourceAt 4)))).
Proof.
  split; [vm_compute; reflexivity |].
  intros Hs.
  assert (fst (findUpdates (Ex.notificationOf 6 [6; 5]) (Ex.sourceAt 4))
            = [Ex.ref 6; Ex.ref 5]) as Heq by (vm_compute; reflexivity).
  rewrite Heq in Hs. simpl in Hs.
  apply StronglySorted_inv in Hs as (_ & Hhd).
  apply Forall_cons in Hhd as (Hlt & _). lia.
Qed.

(** ** The JSON-sequence reader *)

(** The reader returns the error of the first record the callback fails
    on, and leaves the state the callback left. *)
Lemma readJSONSeqRecords_first_error {S} (fn : Bytes → error → M S error)
    pre bad rest final s s1 s2 e :
  accepted fn pre s s1 →
  fn bad None s1 = (Returned (Some e), s2) → e ≠ io_EOF →
  readJSONSeqRecords (pre ++ bad :: rest) final fn s = (Returned (Some e), s2).
Proof.
  intros Hacc Hbad Hne. induction Hacc as [s | b pre' s s1 s2' Hb Hacc IH].
  - simpl. run. rewrite Hbad. destruct e; try reflexivity. congruence.
  - simpl. run. rewrite Hb. apply IH; assumption.
Qed.

(** ** [applyDeltaFunc] *)

Lemma objectOps_trans {R} {Repo : Repository R} (r1 r2 r3 : R) :
  objectOps r1 r2 → objectOps r2 r3 → objectOps r1 r3.
Proof.
  intros H12 H23. induction H23; [assumption | |]; constructor; auto.
Qed.

(** The callback on the header record of a file whose header is in order:
    it records the header, sets the version of its copy of the source and
    saves that copy at once. *)
Lemma applyDeltaFunc_header_accepted {D : Decoders} {R} {Repo : Repository R}
    notification deltaRef bytes deltaHeader (r : R) src :
  json_Unmarshal_DeltaFileJSON bytes = inr deltaHeader →
  validateDeltaHeader (DeltaFileJSON.NrtmFileJSON deltaHeader) src deltaRef = None →
  applyDeltaFunc notification deltaRef bytes None (r, mkDeltaVars None src)
    = (Returned (snd (fst (SaveSource
                  (NRTMSource.setVersion src (FileRefJSON.Version deltaRef))
                  notification r))),
       (snd (SaveSource (NRTMSource.setVersion src (FileRefJSON.Version deltaRef))
               notification r),
        mkDeltaVars (Some deltaHeader)
          (NRTMSource.setVersion src (FileRefJSON.Version deltaRef)))).
Proof.
  intros Hj Hv. unfold applyDeltaFunc. run. rewrite Hj, Hv. run.
  destruct (SaveSource _ _ r) as [[s e] r1]. reflexivity.
Qed.

(** Once the header is there, a call of the callback does object operations
    on the store and nothing else, and keeps its captured variables. *)
Lemma applyDeltaFunc_entry {D : Decoders} {R} {Repo : Repository R}
    notification deltaRef bytes err (r : R) vars hdr res s' :
  header vars = Some hdr →
  applyDeltaFunc notification deltaRef bytes err (r, vars) = (res, s') →
  objectOps r (fst s') ∧ snd s' = vars.
Proof.
  intros Hh. unfold applyDeltaFunc.
  destruct err as [e |]; [destruct e |]; run; rewrite ?Hh;
    repeat match goal with
      | |- context [match ?x with _ => _ end] =>
          lazymatch x with
          | context [match _ with _ => _ end] => fail
          | _ => destruct x eqn:?
          end
      end;
    intros [= <- <-]; (split; [| reflexivity]); cbn [fst]; try constructor.
  all: match goal with
       | H : AddModifyObject ?a ?b ?c ?r0 = (_, ?r1) |- _ =>
           replace r1 with (snd (AddModifyObject a b c r0)) by (now rewrite H)
       | H : DeleteObject ?a ?b ?c ?d ?r0 = (_, ?r1) |- _ =>
           replace r1 with (snd (DeleteObject a b c d r0)) by (now rewrite H)
       end.
  all: do 2 constructor.
Qed.

(** The same for the reader over the records that follow the header. *)
Lemma readJSONSeqRecords_entries {D : Decoders} {R} {Repo : Repository R}
    notification deltaRef records final (r : R) vars hdr res s' :
  header vars = Some hdr →
  readJSONSeqRecords records final (applyDeltaFunc notification deltaRef) (r, vars)
    = (res, s') →
  objectOps r (fst s').
Proof.
  intros Hh. revert r res s'.
  induction records as [| bytes rest IH]; intros r res s';
    cbn [readJSONSeqRecords]; run.
  - destruct (applyDeltaFunc notification deltaRef final (Some io_EOF) (r, vars))
      as [res1 s1] eqn:Hcb.
    apply (applyDeltaFunc_entry _ _ _ _ _ _ _ _ _ Hh) in Hcb as (Hops & _).
    destruct res1 as [[e |] | |]; intros [= <- <-]; exact Hops.
  - destruct (applyDeltaFunc notification deltaRef bytes None (r, vars))
      as [res1 [r1 vars1]] eqn:Hcb.
    apply (applyDeltaFunc_entry _ _ _ _ _ _ _ _ _ Hh) in Hcb as (Hops & Hvars).
    simpl in Hops, Hvars. subst vars1.
    destruct res1 as [[e |] | |];
      try (intros [= <- <-]; exact Hops).
    + destruct e; try (intros [= <- <-]; exact Hops).
      intros Hrest. apply IH in Hrest. eapply objectOps_trans; eauto.
    + intros Hrest. apply IH in Hrest. eapply objectOps_trans; eauto.
Qed.

Lemma validateDeltaHeader_not_EOF file source deltaRef e :
  validateDeltaHeader file source deltaRef = Some e → e ≠ io_EOF.
Proof.
  unfold validateDeltaHeader.
  repeat match goal with
    | |- context [if ?b then _ else _] => destruct b
    end; congruence.
Qed.

(** C1, as it holds. Applying a delta file is not one transaction. When the
    header record is not in order, the file is refused with the error of the
    header check and the store is as before. When it is in order the
    callback saves the source with the version of the delta file at once,
    before any entry is read. Whatever happens afterwards, the store at the
    end is the store of that [SaveSource] call followed by the
    [AddModifyObject] and [DeleteObject] calls of the entries: the save is
    never undone. When an entry fails, the reader stops and returns the error
    of that entry. *)
Theorem applyDelta_header_save_is_kept
    {D : Decoders} {R : Type} {Repo : Repository R}
    (notification : NotificationJSON.t) (deltaRef : FileRefJSON.t)
    (source : NRTMSource.t) (hdrBytes : Bytes) (deltaHeader : DeltaFileJSON.t)
    (records : list Bytes) (final : Bytes) (r : R) (res : Result error) (r' : R) :
  json_Unmarshal_DeltaFileJSON hdrBytes = inr deltaHeader →
  withVars (mkDeltaVars None source)
    (readJSONSeqRecords (hdrBytes :: records) final
       (applyDeltaFunc notification deltaRef)) r = (res, r') →
  (∀ e,
     validateDeltaHeader (DeltaFileJSON.NrtmFileJSON deltaHeader) source deltaRef
       = Some e →
     res = Returned (Some e) ∧ r' = r)
  ∧ (validateDeltaHeader (DeltaFileJSON.NrtmFileJSON deltaHeader) source deltaRef
       = None →
     objectOps
       (snd (SaveSource (NRTMSource.setVersion source (FileRefJSON.Version deltaRef))
               notification r)) r'
     ∧ (∀ pre bad rest e s1 s2,
          records = pre ++ bad :: rest →
          accepted (applyDeltaFunc notification deltaRef) (hdrBytes :: pre)
            (r, mkDeltaVars None source) s1 →
          applyDeltaFunc notification deltaRef bad None s1 = (Returned (Some e), s2) →
          e ≠ io_EOF →
          res = Returned (Some e) ∧ r' = fst s2)).
Proof.
  intros Hj Hrun. split; [| intros Hv; split].
  - intros e Hv.
    pose proof (applyDeltaFunc_header_rejected notification deltaRef hdrBytes
                  deltaHeader r source e None (or_introl eq_refl) Hj Hv) as Hcb.
    pose proof (readJSONSeqRecords_first_error _ [] hdrBytes records final _ _ _ _
                  (accepted_nil _ _) Hcb (validateDeltaHeader_not_EOF _ _ _ _ Hv))
      as Hfirst.
    unfold withVars in Hrun. simpl app in Hfirst. rewrite Hfirst in Hrun.
    injection Hrun as <- <-. split; reflexivity.
  - revert Hrun. unfold withVars. cbn [readJSONSeqRecords]. run.
    rewrite (applyDeltaFunc_header_accepted _ _ _ _ _ _ Hj Hv).
    set (r1 := snd (SaveSource _ notification r)).
    set (vars1 := mkDeltaVars (Some deltaHeader) _).
    assert (∀ res0 s0,
              readJSONSeqRecords records final (applyDeltaFunc notification deltaRef)
                (r1, vars1) = (res0, s0) → objectOps r1 (fst s0)) as Hrest
      by (intros; eapply (readJSONSeqRecords_entries _ _ _ _ _ vars1); eauto; reflexivity).
    destruct (snd (fst (SaveSource _ notification r))) as [e |].
    + destruct e;
        try (intros [= <- <-]; constructor);
        destruct (readJSONSeqRecords records final _ (r1, vars1)) as [res0 s0] eqn:Hr;
        intros [= <- <-]; eapply Hrest; eauto.
    + destruct (readJSONSeqRecords records final _ (r1, vars1)) as [res0 s0] eqn:Hr.
      intros [= <- <-]. eapply Hrest; eauto.
  - intros pre bad rest e s1 s2 -> Hacc Hbad Hne.
    pose proof (readJSONSeqRecords_first_error _ _ _ rest final _ _ _ _ Hacc Hbad Hne)
      as Hfirst.
    unfold withVars in Hrun. simpl app in Hfirst. rewrite Hfirst in Hrun.
    injection Hrun as <- <-. split; reflexivity.
Qed.

(** In the in-memory store object operations leave the source records
    alone, so after a header in order the persisted version is the version
    of the delta file, however the file ends. *)
Lemma MemRepo_objectOps_sources (r r' : MemRepo.t) :
  objectOps r r' → MemRepo.sources r' = MemRepo.sources r.
Proof.
  induction 1 as [| r r' src obj hdr _ IH | r r' src cls pk hdr _ IH];
    [reflexivity | exact IH |].
  simpl. unfold MemRepo.deleteObject. destruct (MemRepo.deleteFault r'); exact IH.
Qed.

(** A delete entry: the result of [DeleteObject] is not looked at, the
    callback returns [nil] whatever it is. *)
Lemma applyDeltaFunc_delete {D : Decoders} {R} {Repo : Repository R}
    notification deltaRef bytes delta (r : R) vars hdr cls pk :
  header vars = Some hdr →
  json_Unmarshal_DeltaJSON bytes = inr delta →
  DeltaJSON.Action delta = DeltaDeleteAction →
  DeltaJSON.ObjectClass delta = Some cls →
  DeltaJSON.PrimaryKey delta = Some pk →
  applyDeltaFunc notification deltaRef bytes None (r, vars)
    = (Returned None,
       (snd (DeleteObject (source vars) cls pk (DeltaFileJSON.NrtmFileJSON hdr) r),
        vars)).
Proof.
  intros Hh Hj Ha Hc Hp. unfold applyDeltaFunc. run.
  rewrite Hh, Hj, Ha, Hc, Hp. cbn.
  destruct (DeleteObject _ _ _ _ r). reflexivity.
Qed.

(** An add-or-modify entry, for comparison: the error of [AddModifyObject]
    is returned. *)
Lemma applyDeltaFunc_add_modify_error {D : Decoders} {R} {Repo : Repository R}
    notification deltaRef bytes delta (r r1 : R) vars hdr text obj e :
  header vars = Some hdr →
  json_Unmarshal_DeltaJSON bytes = inr delta →
  DeltaJSON.Action delta = DeltaAddModifyAction →
  DeltaJSON.Object delta = Some text →
  rpsl_ParseString text = (obj, None) →
  AddModifyObject (source vars) obj (DeltaFileJSON.NrtmFileJSON hdr) r = (Some e, r1) →
  applyDeltaFunc notification deltaRef bytes None (r, vars)
    = (Returned (Some e), (r1, vars)).
Proof.
  intros Hh Hj Ha Ho Hp Hadd. unfold applyDeltaFunc. run.
  rewrite Hh, Hj, Ha, Ho, Hp. cbn. rewrite Hadd. reflexivity.
Qed.

(** ** [snapshotObjectInsertFunc] *)

(** [bytesToRPSL] gives [nil] only for a record that is not JSON. When the
    RPSL text does not parse, it returns what the parser left. *)
Lemma bytesToRPSL_not_json {D : Decoders} bytes e :
  json_Unmarshal_SnapshotObjectJSON bytes = inl e → bytesToRPSL bytes = None.
Proof. intros H. unfold bytesToRPSL. now rewrite H. Qed.

Lemma bytesToRPSL_not_rpsl {D : Decoders} bytes so obj err :
  json_Unmarshal_SnapshotObjectJSON bytes = inr so →
  rpsl_ParseString (SnapshotObjectJSON.Object so) = (obj, err) →
  bytesToRPSL bytes = Some obj.
Proof. intros Hj Hp. unfold bytesToRPSL. now rewrite Hj, Hp. Qed.

(** What the callback checks on the first record: that it is JSON, and the
    version. *)
Lemma snapshot_header_checks {D : Decoders} {R} {Repo : Repository R}
    notification bytes (r : R) src :
  snapshotObjectInsertFunc notification bytes None (r, newSnapshotVars src)
  = match json_Unmarshal_SnapshotFileJSON bytes with
    | inl e =>
        (Returned (Some e), (r, incSuccessfulObjects (newSnapshotVars src)))
    | inr sf =>
        if SnapshotFileJSON.Version sf
           =? FileRefJSON.Version (NotificationJSON.SnapshotRef notification)
        then (Returned None,
              (r, setSnapshotHeader sf (incSuccessfulObjects (newSnapshotVars src))))
        else (Returned (Some ErrNRTMFileVersionMismatch),
              (r, incSuccessfulObjects (newSnapshotVars src)))
    end.
Proof.
  unfold snapshotObjectInsertFunc. run. cbn.
  destruct (json_Unmarshal_SnapshotFileJSON bytes) as [e | sf]; [reflexivity |].
  destruct (_ =? _); reflexivity.
Qed.

(** ** [Update] *)

(** C7. For a stored source whose notification file downloads: [Update]
    returns an error when the session id of the notification is not the
    source's; it returns an error when the notification's version is below
    the source's; and with the same session and the same version it returns
    [nil]. In all three cases the store is as it was, and neither
    [findUpdates] nor any delta is reached: the result does not depend on the
    deltas the notification lists. *)
Theorem Update_checks_before_analysis
    {D : Decoders} {R : Type} {Repo : Repository R} {Cl : Client}
    (path sourceName label : string) (r : R)
    (source : NRTMSource.t) (notification : NotificationJSON.t) :
  getSourceByNameAndLabel sourceName label r = Some source →
  downloadNotificationFile (NRTMSource.NotificationURL source) = (notification, []) →
  (NotificationJSON.SessionID notification ≠ NRTMSource.SessionID source →
     Update path sourceName label r
       = (Returned (Some (errors_New "server has a new mirror session")), r))
  ∧ (NotificationJSON.Version notification < NRTMSource.Version source →
     ∃ e, Update path sourceName label r = (Returned (Some e), r))
  ∧ (NotificationJSON.SessionID notification = NRTMSource.SessionID source →
     NotificationJSON.Version notification < NRTMSource.Version source →
     Update path sourceName label r
       = (Returned (Some (errors_New "server has old version")), r))
  ∧ (NotificationJSON.SessionID notification = NRTMSource.SessionID source →
     NotificationJSON.Version notification = NRTMSource.Version source →
     Update path sourceName label r = (Returned None, r)).
Proof.
  intros Hsrc Hdl. unfold Update. run. rewrite Hsrc, Hdl. cbn [length Z.of_nat].
  change (0 <? 0) with false. cbv iota.
  destruct (String.eqb_spec (NotificationJSON.SessionID notification)
              (NRTMSource.SessionID source)) as [Hs | Hs]; cbn [negb].
  - destruct (Z.ltb_spec (NotificationJSON.Version notification)
                (NRTMSource.Version source)) as [Hlt | Hge].
    + repeat split; intros; try reflexivity; try contradiction; try lia.
      eexists; reflexivity.
    + repeat split; intros; try contradiction; try lia.
      rewrite (proj2 (Z.eqb_eq _ _)) by assumption. reflexivity.
  - repeat split; intros; try reflexivity; try contradiction.
    eexists; reflexivity.
Qed.

(** ** [ReplaceLabel] *)

(** C9, as it holds. [ReplaceLabel(n, a, b)] first looks for the source
    [(n, a)] and fails with its own error when there is none, whether or not
    [(n, b)] exists. When [(n, a)] exists, it fails with
    [ErrSourceAlreadyExists] if and only if a source [(n, b)] exists, and
    then the store is untouched. Otherwise it writes one row, inside a
    transaction: the target with its label replaced and every other field
    as before; it returns that row with the error of the transaction. The
    error of the transaction is an error of package [db], which cannot be
    the service's own [ErrSourceAlreadyExists]. *)
Theorem ReplaceLabel_already_exists_iff
    {R : Type} {Repo : Repository R} (src fromLabel toLabel : string) (r : R) :
  (∀ s r0, fst (db_Update s r0) ≠ Some ErrSourceAlreadyExists) →
  (getSourceByNameAndLabel src fromLabel r = None →
     ReplaceLabel src fromLabel toLabel r
       = (Returned (None,
            Some (errors_New "cannot find source with given name and label")), r))
  ∧ (∀ target,
       getSourceByNameAndLabel src fromLabel r = Some target →
       (snd <$> (match fst (ReplaceLabel src fromLabel toLabel r) with
                 | Returned res => Some res
                 | _ => None
                 end) = Some (Some ErrSourceAlreadyExists)
          ↔ getSourceByNameAndLabel src toLabel r ≠ None)
       ∧ (getSourceByNameAndLabel src toLabel r ≠ None →
          ReplaceLabel src fromLabel toLabel r
            = (Returned (None, Some ErrSourceAlreadyExists), r))
       ∧ (getSourceByNameAndLabel src toLabel r = None →
          ReplaceLabel src fromLabel toLabel r
            = (Returned (Some (NRTMSource.setLabel target toLabel),
                 fst (db_WithTransaction
                        (db_Update (NRTMSource.setLabel target toLabel)) r)),
               snd (db_WithTransaction
                      (db_Update (NRTMSource.setLabel target toLabel)) r))
          ∧ NRTMSource.Label (NRTMSource.setLabel target toLabel) = toLabel
          ∧ NRTMSource.ID (NRTMSource.setLabel target toLabel) = NRTMSource.ID target
          ∧ NRTMSource.Source (NRTMSource.setLabel target toLabel)
              = NRTMSource.Source target
          ∧ NRTMSource.SessionID (NRTMSource.setLabel target toLabel)
              = NRTMSource.SessionID target
          ∧ NRTMSource.Version (NRTMSource.setLabel target toLabel)
              = NRTMSource.Version target
          ∧ NRTMSource.NotificationURL (NRTMSource.setLabel target toLabel)
              = NRTMSource.NotificationURL target
          ∧ NRTMSource.Created (NRTMSource.setLabel target toLabel)
              = NRTMSource.Created target)).
Proof.
  intros Hdb. split.
  { intros Hnone. unfold ReplaceLabel. run. now rewrite Hnone. }
  intros target Htarget.
  assert (getSourceByNameAndLabel src toLabel r = None →
          ReplaceLabel src fromLabel toLabel r
            = (Returned (Some (NRTMSource.setLabel target toLabel),
                 fst (db_WithTransaction
                        (db_Update (NRTMSource.setLabel target toLabel)) r)),
               snd (db_WithTransaction
                      (db_Update (NRTMSource.setLabel target toLabel)) r))) as Hfree.
  { intros Hnone. unfold ReplaceLabel. run. rewrite Htarget, Hnone.
    destruct (db_WithTransaction _ r). reflexivity. }
  assert (getSourceByNameAndLabel src toLabel r ≠ None →
          ReplaceLabel src fromLabel toLabel r
            = (Returned (None, Some ErrSourceAlreadyExists), r)) as Htaken.
  { intros Hsome. unfold ReplaceLabel. run. rewrite Htarget.
    destruct (getSourceByNameAndLabel src toLabel r); [reflexivity | congruence]. }
  split; [| split; [exact Htaken | intros Hnone; split; [now apply Hfree |]]].
  - split.
    + intros Herr Hnone. rewrite (Hfree Hnone) in Herr. cbn in Herr.
      injection Herr as Herr.
      unfold db_WithTransaction in Herr.
      pose proof (Hdb (NRTMSource.setLabel target toLabel) r) as Hne.
      destruct (db_Update (NRTMSource.setLabel target toLabel) r) as [[e |] r1];
        cbn in Herr, Hne; congruence.
    + intros Hsome. now rewrite (Htaken Hsome).
  - repeat split.
Qed.


(** * More about the service *)

(** ** [findUpdates] and the deltas a sync applies *)

Lemma StronglySorted_lt_seqZ_any (m n : Z) : StronglySorted Z.lt (seqZ m n).
Proof.
  destruct (Z_le_gt_dec n 0) as [Hn | Hn].
  - rewrite seqZ_nil by lia. constructor.
  - replace n with (Z.of_nat (Z.to_nat n)) by lia. apply StronglySorted_lt_seqZ.
Qed.

Lemma elem_of_versions (refs : list FileRefJSON.t) (x : Z) :
  x ∈ List.map FileRefJSON.Version refs ↔
  ∃ r, r ∈ refs ∧ FileRefJSON.Version r = x.
Proof.
  rewrite list_elem_of_In, in_map_iff. split.
  - intros (r & Hr & Hin). exists r. split; [now apply list_elem_of_In | assumption].
  - intros (r & Hin & Hr). exists r. split; [assumption | now apply list_elem_of_In].
Qed.

Lemma elem_of_newer (refs : list FileRefJSON.t) (v : Z) (r : FileRefJSON.t) :
  r ∈ List.filter (fun d => v <? FileRefJSON.Version d) refs ↔
  r ∈ refs ∧ v < FileRefJSON.Version r.
Proof.
  rewrite list_elem_of_In, filter_In, <- list_elem_of_In, Z.ltb_lt. reflexivity.
Qed.

(** What a successful [findUpdates] has established about the notification. *)
Lemma findUpdates_success_inv notification source refs deltaRefs :
  NotificationJSON.DeltaRefs notification = Some refs →
  Forall (fun r => is_u32 (FileRefJSON.Version r)) refs →
  findUpdates notification source = (deltaRefs, None) →
  refs ≠ []
  ∧ NoDup (List.map FileRefJSON.Version refs)
  ∧ maxOf (List.map FileRefJSON.Version refs) = NotificationJSON.Version notification
  ∧ strictlyContiguous (List.map FileRefJSON.Version refs)
  ∧ minOf (List.map FileRefJSON.Version refs)
      <= wrap32 (NRTMSource.Version source + 1)
  ∧ deltaRefs = List.filter (fun d =>
      NRTMSource.Version source <? FileRefJSON.Version d) refs.
Proof.
  intros Href Hu Hres.
  destruct (decide (refs = [])) as [-> | Hne];
    [unfold findUpdates in Hres; rewrite Href in Hres; discriminate |].
  pose proof (versions_nonempty _ Hne) as Hvne.
  rewrite (findUpdates_some _ _ _ Href Hne) in Hres.
  destruct (negb (Nat.eqb _ _)) eqn:Hdup in Hres; [discriminate |].
  apply duplicate_check_inv in Hdup.
  rewrite (sorted_last_maxOf _ Hvne), (sorted_first_minOf _ Hvne) in Hres.
  destruct (Z.eqb_spec (maxOf (List.map FileRefJSON.Version refs))
              (NotificationJSON.Version notification)) as [Hmax |];
    [| discriminate].
  simpl negb in Hres.
  destruct (contiguous _) eqn:Hc in Hres; [| discriminate].
  apply (contiguous_sortVersions _ Hvne Hdup (versions_u32 _ Hu)) in Hc.
  simpl negb in Hres.
  destruct (Z.ltb_spec (wrap32 (NRTMSource.Version source + 1))
              (minOf (List.map FileRefJSON.Version refs))) as [| Hlo];
    [discriminate |].
  injection Hres as <-. repeat split; assumption.
Qed.

(** A contiguous list of versions is the interval from its least to its
    greatest element. *)
Lemma strictlyContiguous_interval (vs : list Z) (x : Z) :
  vs ≠ [] → strictlyContiguous vs →
  (x ∈ vs ↔ minOf vs <= x <= maxOf vs).
Proof.
  intros Hne Hc. unfold strictlyContiguous in Hc.
  destruct (maxOf_spec vs Hne) as (Hmax_in & Hmax_ub).
  destruct (minOf_spec vs Hne) as (Hmin_in & Hmin_lb).
  rewrite Forall_forall in Hmax_ub, Hmin_lb.
  assert (∀ y, y ∈ vs ↔ minOf vs <= y < minOf vs + Z.of_nat (length vs)) as Hiv.
  { intros y. rewrite <- elem_of_seqZ.
    remember (seqZ (minOf vs) (Z.of_nat (length vs))) as iv eqn:Hiv. clear Hiv.
    now rewrite Hc. }
  assert (0 < length vs)%nat as Hlen by (destruct vs; [congruence | simpl; lia]).
  assert (maxOf vs = minOf vs + Z.of_nat (length vs) - 1) as Hmaxeq.
  { apply Hiv in Hmax_in.
    assert (minOf vs + Z.of_nat (length vs) - 1 ∈ vs) as Hlast by (apply Hiv; lia).
    apply Hmax_ub in Hlast. lia. }
  rewrite Hiv. lia.
Qed.

(** X1. When [findUpdates] succeeds, the versions of the returned
    references, once sorted as [syncDeltas] sorts them, are exactly
    [source.Version + 1, ..., notification.Version]: the sync starts right
    after the local version, has no gap and ends at the notification's
    version. When the source is at or above the notification's version the
    list is empty. *)
Theorem findUpdates_next_versions
    (notification : NotificationJSON.t) (source : NRTMSource.t)
    (refs deltaRefs : list FileRefJSON.t) :
  is_u32 (NRTMSource.Version source) →
  NotificationJSON.DeltaRefs notification = Some refs →
  Forall (fun r => is_u32 (FileRefJSON.Version r)) refs →
  findUpdates notification source = (deltaRefs, None) →
  List.map FileRefJSON.Version (sortFileRefs deltaRefs)
    = seqZ (NRTMSource.Version source + 1)
        (NotificationJSON.Version notification - NRTMSource.Version source).
Proof.
  intros HS Href Hu Hres.
  destruct (findUpdates_success_inv _ _ _ _ Href Hu Hres)
    as (Hne & Hnd & Hmax & Hc & Hlo & ->).
  pose proof (versions_nonempty _ Hne) as Hvne.
  set (newer := List.filter _ refs).
  assert (NoDup (List.map FileRefJSON.Version newer)) as Hnd'
    by now apply NoDup_map_filter.
  apply (StronglySorted_unique Z.le).
  - apply StronglySorted_lt_le. now apply sortFileRefs_ascending.
  - apply StronglySorted_lt_le, StronglySorted_lt_seqZ_any.
  - apply NoDup_Permutation.
    + assert (List.map FileRefJSON.Version (sortFileRefs newer)
                ≡ₚ List.map FileRefJSON.Version newer) as Hp
        by apply Permutation_map, sortFileRefs_Permutation.
      now rewrite Hp.
    + apply NoDup_seqZ.
    + intros x. rewrite elem_of_seqZ.
      assert (x ∈ List.map FileRefJSON.Version (sortFileRefs newer)
              ↔ x ∈ List.map FileRefJSON.Version refs
                ∧ NRTMSource.Version source < x) as ->.
      { rewrite !elem_of_versions. split.
        - intros (r & Hr & <-). rewrite sortFileRefs_Permutation in Hr.
          apply elem_of_newer in Hr as (Hr & Hlt). eauto.
        - intros ((r & Hr & <-) & Hlt). exists r. split; [| reflexivity].
          rewrite sortFileRefs_Permutation. apply elem_of_newer. auto. }
      rewrite (strictlyContiguous_interval _ x Hvne Hc), Hmax.
      destruct (minOf_spec _ Hvne) as (Hmin & _).
      assert (is_u32 (minOf (List.map FileRefJSON.Version refs))) as Hlo32.
      { pose proof (versions_u32 _ Hu) as Hall. rewrite Forall_forall in Hall. auto. }
      destruct (maxOf_spec _ Hvne) as (Hmx & _).
      assert (is_u32 (NotificationJSON.Version notification)) as HN32.
      { rewrite <- Hmax. pose proof (versions_u32 _ Hu) as Hall.
        rewrite Forall_forall in Hall. auto. }
      unfold is_u32, u32_max in HS, Hlo32, HN32.
      destruct (Z.eq_dec (NRTMSource.Version source) 4294967295) as [Heq | Hneq].
      * lia.
      * rewrite wrap32_small in Hlo by (unfold u32_max; lia). lia.
Qed.

Lemma findUpdates_next_versions_witness :
  List.map FileRefJSON.Version
    (sortFileRefs (fst (findUpdates (Ex.notificationOf 8 [8; 5; 7; 6]) (Ex.sourceAt 6))))
  = [7; 8].
Proof.
  refine (findUpdates_next_versions (Ex.notificationOf 8 [8; 5; 7; 6]) (Ex.sourceAt 6)
            (List.map Ex.ref [8; 5; 7; 6]) _ _ eq_refl _ _).
  - unfold is_u32, u32_max; simpl; lia.
  - repeat constructor; unfold is_u32, u32_max; simpl; lia.
  - vm_compute. reflexivity.
Defined.

Lemma NewSet_Permutation (l k : list Z) : l ≡ₚ k → NewSet l = NewSet k.
Proof.
  intros Hp. unfold NewSet. apply leibniz_equiv. intros x.
  rewrite !elem_of_list_to_set. now rewrite Hp.
Qed.

Lemma sortVersions_Permutation_eq (l k : list Z) :
  l ≡ₚ k → sortVersions l = sortVersions k.
Proof.
  intros Hp. apply (StronglySorted_unique Z.le); try apply sortVersions_Sorted.
  now rewrite !sortVersions_Permutation.
Qed.

Lemma filter_Permutation_bool {A} (p : A → bool) (l k : list A) :
  l ≡ₚ k → List.filter p l ≡ₚ List.filter p k.
Proof.
  induction 1 as [| x l k _ IH | x y l | l k m _ IH1 _ IH2]; simpl.
  - reflexivity.
  - destruct (p x); [now constructor | assumption].
  - destruct (p x), (p y); try reflexivity. apply perm_swap.
  - etransitivity; eassumption.
Qed.

Lemma NoDup_versions_inj (refs : list FileRefJSON.t) (a b : FileRefJSON.t) :
  NoDup (List.map FileRefJSON.Version refs) →
  a ∈ refs → b ∈ refs → FileRefJSON.Version a = FileRefJSON.Version b → a = b.
Proof.
  induction refs as [| r refs IH]; intros Hnd Ha Hb Heq; [inversion Ha |].
  simpl in Hnd. apply NoDup_cons in Hnd as (Hnin & Hnd).
  apply elem_of_cons in Ha as [-> | Ha]; apply elem_of_cons in Hb as [-> | Hb].
  - reflexivity.
  - exfalso. apply Hnin. apply elem_of_versions. eauto.
  - exfalso. apply Hnin. apply elem_of_versions. eauto.
  - now apply IH.
Qed.

(** X2. The order in which a notification lists its deltas does not
    matter: listing the same references in another order gives the same
    error, or else the same references to apply once [syncDeltas] has sorted
    them. *)
Theorem findUpdates_order_irrelevant
    (notification : NotificationJSON.t) (source : NRTMSource.t)
    (refs refs' : list FileRefJSON.t) :
  NotificationJSON.DeltaRefs notification = Some refs →
  refs ≡ₚ refs' →
  snd (findUpdates
         (NotificationJSON.mk (NotificationJSON.NrtmFileJSON notification)
            (NotificationJSON.SnapshotRef notification) (Some refs')) source)
    = snd (findUpdates notification source)
  ∧ sortFileRefs
      (fst (findUpdates
              (NotificationJSON.mk (NotificationJSON.NrtmFileJSON notification)
                 (NotificationJSON.SnapshotRef notification) (Some refs')) source))
    = sortFileRefs (fst (findUpdates notification source)).
Proof.
  intros Href Hp.
  set (notification' := NotificationJSON.mk _ _ (Some refs')).
  assert (NotificationJSON.DeltaRefs notification' = Some refs') as Href' by reflexivity.
  destruct (decide (refs = [])) as [-> | Hne].
  { apply Permutation_nil_l in Hp. subst refs'.
    unfold findUpdates. rewrite Href, Href'. split; reflexivity. }
  assert (refs' ≠ []) as Hne'
    by (intros ->; apply Permutation_nil_r in Hp; contradiction).
  assert (List.map FileRefJSON.Version refs' ≡ₚ List.map FileRefJSON.Version refs)
    as Hpv by (symmetry; now apply Permutation_map).
  rewrite (findUpdates_some _ _ _ Href Hne), (findUpdates_some _ _ _ Href' Hne').
  rewrite (NewSet_Permutation _ _ Hpv), (Permutation_length Hpv),
    (sortVersions_Permutation_eq _ _ Hpv).
  change (NotificationJSON.Version notification')
    with (NotificationJSON.Version notification).
  destruct (negb (Nat.eqb _ _)) eqn:Hdup; [split; reflexivity |].
  apply duplicate_check_inv in Hdup.
  destruct (negb (_ =? _)); [split; reflexivity |].
  destruct (negb (contiguous _)); [split; reflexivity |].
  destruct (_ <? _); [split; reflexivity |].
  split; [reflexivity |]. cbn [fst].
  set (p := fun deltaRef : FileRefJSON.t => _ <? _).
  assert (List.filter p refs' ≡ₚ List.filter p refs) as Hpf
    by (symmetry; now apply filter_Permutation_bool).
  apply (StronglySorted_unique_strong fileRefsByVersion).
  - intros a b Ha Hb Hab Hba.
    rewrite sortFileRefs_Permutation in Ha, Hb.
    rewrite Hpf in Ha.
    apply list_elem_of_In, filter_In in Ha as (Ha & _).
    apply list_elem_of_In, filter_In in Hb as (Hb & _).
    apply (NoDup_versions_inj refs); try (now apply list_elem_of_In); try assumption.
    unfold fileRefsByVersion in *. lia.
  - apply StronglySorted_merge_sort; apply _.
  - apply StronglySorted_merge_sort; apply _.
  - now rewrite !sortFileRefs_Permutation.
Qed.

Lemma findUpdates_order_irrelevant_witness :
  sortFileRefs (fst (findUpdates (Ex.notificationOf 8 [8; 5; 7; 6]) (Ex.sourceAt 6)))
  = sortFileRefs (fst (findUpdates (Ex.notificationOf 8 [5; 6; 7; 8]) (Ex.sourceAt 6))).
Proof.
  refine (proj2 (findUpdates_order_irrelevant (Ex.notificationOf 8 [5; 6; 7; 8])
                   (Ex.sourceAt 6) (List.map Ex.ref [5; 6; 7; 8])
                   (List.map Ex.ref [8; 5; 7; 6]) eq_refl _)).
  apply (Permutation_map Ex.ref).
  change [5; 6; 7; 8] with ([5; 6; 7] ++ [8]).
  transitivity ([8] ++ [5; 6; 7]); [apply Permutation_app_comm |].
  apply (perm_skip 8), (perm_skip 5), perm_swap.
Defined.

(** X3. In a sync the fifth header check never fires: for a reference
    that [findUpdates] returned, [validateDeltaHeader] against the source the
    sync started from cannot give [ErrNRTMFileVersionInconsistency]. A header
    with the version of the reference is above the source's version, and any
    other version is refused by the fourth check. *)
Theorem syncDeltas_no_version_inconsistency
    (notification : NotificationJSON.t) (source : NRTMSource.t)
    (deltaRefs : list FileRefJSON.t) (deltaRef : FileRefJSON.t)
    (file : NrtmFileJSON.t) :
  findUpdates notification source = (deltaRefs, None) →
  deltaRef ∈ sortFileRefs deltaRefs →
  validateDeltaHeader file source deltaRef ≠ Some ErrNRTMFileVersionInconsistency.
Proof.
  intros Hres Hin.
  assert (NRTMSource.Version source < FileRefJSON.Version deltaRef) as Hlt.
  { rewrite sortFileRefs_Permutation in Hin.
    destruct (NotificationJSON.DeltaRefs notification) as [refs |] eqn:Href;
      [| unfold findUpdates in Hres; rewrite Href in Hres; discriminate].
    destruct (decide (refs = [])) as [-> | Hne];
      [unfold findUpdates in Hres; rewrite Href in Hres; discriminate |].
    rewrite (findUpdates_some _ _ _ Href Hne) in Hres.
    repeat match type of Hres with
      | (if ?b then _ else _) = _ => destruct b; [discriminate |]
      end.
    injection Hres as <-. now apply elem_of_newer in Hin as (_ & ?). }
  unfold validateDeltaHeader.
  repeat match goal with
    | |- context [negb ?b] => destruct b eqn:?; cbn [negb]
    end; try discriminate.
  destruct (Z.ltb_spec (NrtmFileJSON.Version file) (NRTMSource.Version source));
    [| discriminate].
  match goal with H : (NrtmFileJSON.Version file =? _) = true |- _ =>
    apply Z.eqb_eq in H end.
  lia.
Qed.

Lemma syncDeltas_no_version_inconsistency_witness :
  validateDeltaHeader (NrtmFileJSON.mk 4 "delta" "EXAMPLE" Ex.session 7)
    (Ex.sourceAt 6) (Ex.ref 7) ≠ Some ErrNRTMFileVersionInconsistency.
Proof.
  refine (syncDeltas_no_version_inconsistency (Ex.notificationOf 8 [7; 8]) (Ex.sourceAt 6)
            [Ex.ref 7; Ex.ref 8] (Ex.ref 7) _ _ _).
  - vm_compute. reflexivity.
  - assert (sortFileRefs [Ex.ref 7; Ex.ref 8] = [Ex.ref 7; Ex.ref 8]) as ->
      by (vm_compute; reflexivity).
    left.
Defined.

(** ** [ListSources] *)

(** X4. The range of notification versions [ListSources] asks for ends
    at the source's version, starts at version 1 or 99 below the source's
    version, whichever is greater, and so never holds more than 100
    versions. The [uint32] difference [src.Version - 99] wraps below 99, and
    the wrapped value is never used. *)
Theorem notificationRange_last_hundred (src : NRTMSource.t) :
  is_u32 (NRTMSource.Version src) →
  snd (notificationRange src) = NRTMSource.Version src
  ∧ fst (notificationRange src) = Z.max 1 (NRTMSource.Version src - 99)
  ∧ is_u32 (fst (notificationRange src))
  ∧ snd (notificationRange src) - fst (notificationRange src) + 1 <= 100
  ∧ (1 <= NRTMSource.Version src →
     fst (notificationRange src) <= snd (notificationRange src)).
Proof.
  unfold is_u32, u32_max, notificationRange. intros Hu. cbn [fst snd].
  destruct (Z.leb_spec (NRTMSource.Version src) 99) as [Hle | Hgt].
  - repeat split; lia.
  - rewrite wrap32_small by (unfold u32_max; lia). repeat split; lia.
Qed.

Lemma notificationRange_last_hundred_witness :
  is_u32 (NRTMSource.Version (Ex.sourceAt 42))
  ∧ notificationRange (Ex.sourceAt 42) = (1, 42)
  ∧ notificationRange (Ex.sourceAt 350684) = (350585, 350684).
Proof.
  assert (is_u32 (NRTMSource.Version (Ex.sourceAt 42))) as Hu
    by (unfold is_u32, u32_max; simpl; lia).
  split; [exact Hu |].
  destruct (notificationRange_last_hundred (Ex.sourceAt 42) Hu) as (Hto & Hfrom & _).
  split; [| reflexivity].
  rewrite (surjective_pairing (notificationRange (Ex.sourceAt 42))), Hto, Hfrom.
  reflexivity.
Defined.

Lemma listSourcesLoop_cons {R H} {L : SourceListing R H} (r : R)
    (src : NRTMSource.t) (rest : list NRTMSource.t)
    (deets : list (NRTMSourceDetails.t H)) :
  listSourcesLoop r (src :: rest) deets
  = match snd (GetNotificationHistory src (fst (notificationRange src))
                 (snd (notificationRange src)) r) with
    | Some e => (deets, Some e)
    | None => listSourcesLoop r rest (deets ++ [detailsOf r src])
    end.
Proof.
  cbn [listSourcesLoop]. unfold detailsOf.
  destruct (notificationRange src) as [from to]. cbn [fst snd].
  destruct (GetNotificationHistory src from to r) as [notifs [e |]]; reflexivity.
Qed.

Lemma listSourcesLoop_readable {R H} {L : SourceListing R H} (r : R)
    (sources : list NRTMSource.t) (deets : list (NRTMSourceDetails.t H)) :
  Forall (historyReadable r) sources →
  listSourcesLoop r sources deets = (deets ++ List.map (detailsOf r) sources, None).
Proof.
  intros Hall. revert deets.
  induction Hall as [| src rest Hsrc _ IH]; intros deets.
  - simpl. now rewrite app_nil_r.
  - rewrite listSourcesLoop_cons. unfold historyReadable in Hsrc. rewrite Hsrc.
    rewrite IH, <- app_assoc. reflexivity.
Qed.

Lemma listSourcesLoop_unreadable {R H} {L : SourceListing R H} (r : R)
    (pre : list NRTMSource.t) (src : NRTMSource.t) (rest : list NRTMSource.t)
    (deets : list (NRTMSourceDetails.t H)) (e : Err) :
  Forall (historyReadable r) pre →
  snd (GetNotificationHistory src (fst (notificationRange src))
         (snd (notificationRange src)) r) = Some e →
  listSourcesLoop r (pre ++ src :: rest) deets
    = (deets ++ List.map (detailsOf r) pre, Some e).
Proof.
  intros Hall Hsrc. revert deets.
  induction Hall as [| p pre Hp _ IH]; intros deets.
  - cbn [app List.map]. rewrite listSourcesLoop_cons, Hsrc, app_nil_r. reflexivity.
  - cbn [app List.map]. rewrite listSourcesLoop_cons.
    unfold historyReadable in Hp. rewrite Hp.
    rewrite IH, <- app_assoc. reflexivity.
Qed.

(** X5. [ListSources] returns one entry for every source, in the order
    of [getSources], each with the source and the history of its range,
    when every history can be read. It stops at the first source whose
    history cannot be read and returns that error together with the entries
    of the sources before it. When the sources themselves cannot be read it
    returns the error and no entry. *)
Theorem ListSources_entries {R H : Type} {L : SourceListing R H} (r : R) :
  (∀ e, snd (getSources r) = Some e → ListSources r = ([], Some e))
  ∧ (snd (getSources r) = None →
     (Forall (historyReadable r) (fst (getSources r)) →
        ListSources r = (List.map (detailsOf r) (fst (getSources r)), None))
     ∧ (∀ pre src rest e,
          fst (getSources r) = pre ++ src :: rest →
          Forall (historyReadable r) pre →
          snd (GetNotificationHistory src (fst (notificationRange src))
                 (snd (notificationRange src)) r) = Some e →
          ListSources r = (List.map (detailsOf r) pre, Some e))).
Proof.
  unfold ListSources. destruct (getSources r) as [sources err]. cbn [fst snd].
  split.
  - intros e ->. reflexivity.
  - intros ->. split.
    + intros Hall. now rewrite listSourcesLoop_readable.
    + intros pre src rest e -> Hall Hsrc.
      now rewrite (listSourcesLoop_unreadable r pre src rest [] e Hall Hsrc).
Qed.

(** ** The label pattern *)

Lemma append_nil_r (s : string) : s +:+ "" = s.
Proof.
  induction s as [| c s IH]; [reflexivity |].
  change (String c (s +:+ "") = String c s). now rewrite IH.
Qed.

Lemma append_cons (c : Ascii.ascii) (s1 s2 : string) :
  String c s1 +:+ s2 = String c (s1 +:+ s2).
Proof. reflexivity. Qed.

Lemma append_nil_l (s : string) : "" +:+ s = s.
Proof. reflexivity. Qed.

Lemma append_eq_nil (s1 s2 : string) : s1 +:+ s2 = "" → s1 = "" ∧ s2 = "".
Proof.
  destruct s1; [rewrite append_nil_l; auto | rewrite append_cons; discriminate].
Qed.

Lemma starOf_cons_inv (P : string → Prop) (c : Ascii.ascii) (s : string) :
  starOf P (String c s) →
  ∃ s1 s2, s = s1 +:+ s2 ∧ P (String c s1) ∧ starOf P s2.
Proof.
  intros Hstar. remember (String c s) as t eqn:Ht. revert c s Ht.
  induction Hstar as [| s1 s2 Hs1 Hs2 IH]; intros c s Ht; [discriminate |].
  destruct s1 as [| c1 s1].
  - rewrite append_nil_l in Ht. apply IH. assumption.
  - rewrite append_cons in Ht. injection Ht as -> <-. exists s1, s2. auto.
Qed.

Lemma nullable_denotes (r : regexp.t) :
  regexp.nullable r = true ↔ denotes r "".
Proof.
  induction r as [| | p | r1 IH1 r2 IH2 | r1 IH1 r2 IH2 | r1 IH]; simpl.
  - split; [discriminate | tauto].
  - tauto.
  - split; [discriminate | intros (c & Hc & _); discriminate].
  - rewrite andb_true_iff, IH1, IH2. split.
    + intros (H1 & H2). exists "", "". auto.
    + intros (s1 & s2 & Heq & H1 & H2). symmetry in Heq.
      apply append_eq_nil in Heq as (-> & ->). auto.
  - rewrite orb_true_iff, IH1, IH2. tauto.
  - split; [constructor | reflexivity].
Qed.

Lemma after_denotes (r : regexp.t) (c : Ascii.ascii) (s : string) :
  denotes (regexp.after c r) s ↔ denotes r (String c s).
Proof.
  revert s.
  induction r as [| | p | r1 IH1 r2 IH2 | r1 IH1 r2 IH2 | r1 IH]; intros s; simpl.
  - tauto.
  - split; [tauto | discriminate].
  - destruct (p c) eqn:Hp; simpl.
    + split.
      * intros ->. exists c. auto.
      * intros (c' & Heq & _). now injection Heq as _ ->.
    + split; [tauto |].
      intros (c' & Heq & Hp'). injection Heq as -> _. congruence.
  - assert (denotes (regexp.Cat (regexp.after c r1) r2) s
            ↔ ∃ s1 s2, s = s1 +:+ s2 ∧ denotes r1 (String c s1) ∧ denotes r2 s2)
      as Hhead.
    { simpl. split; intros (s1 & s2 & Heq & H1 & H2); exists s1, s2;
        (split; [assumption |]); (split; [| assumption]); now apply IH1. }
    assert ((∃ s1 s2, String c s = s1 +:+ s2 ∧ denotes r1 s1 ∧ denotes r2 s2)
            ↔ (denotes r1 "" ∧ denotes r2 (String c s))
              ∨ (∃ s1 s2, s = s1 +:+ s2 ∧ denotes r1 (String c s1) ∧ denotes r2 s2))
      as Hsplit.
    { split.
      - intros (s1 & s2 & Heq & H1 & H2). destruct s1 as [| c1 s1].
        + rewrite append_nil_l in Heq. subst s2. left. auto.
        + rewrite append_cons in Heq. injection Heq as <- ->.
          right. exists s1, s2. auto.
      - intros [(H1 & H2) | (s1 & s2 & -> & H1 & H2)].
        + exists "", (String c s). auto.
        + exists (String c s1), s2. auto. }
    rewrite Hsplit.
    destruct (regexp.nullable r1) eqn:Hn.
    + apply nullable_denotes in Hn.
      change (denotes (regexp.Cat (regexp.after c r1) r2) s
              ∨ denotes (regexp.after c r2) s
              ↔ denotes r1 "" ∧ denotes r2 (String c s)
                ∨ (∃ s1 s2, s = s1 +:+ s2 ∧ denotes r1 (String c s1) ∧ denotes r2 s2)).
      rewrite Hhead, IH2. tauto.
    + assert (¬ denotes r1 "") as Hnn
        by (intros Hd; apply nullable_denotes in Hd; congruence).
      rewrite Hhead. tauto.
  - rewrite IH1, IH2. tauto.
  - split.
    + intros (s1 & s2 & -> & H1 & H2). apply IH in H1.
      change (String c (s1 +:+ s2)) with (String c s1 +:+ s2). now constructor.
    + intros Hstar. apply starOf_cons_inv in Hstar as (s1 & s2 & -> & H1 & H2).
      exists s1, s2. split; [reflexivity |]. split; [now apply IH | assumption].
Qed.

(** [MatchString] decides the strings the pattern stands for. *)
Lemma MatchString_denotes (r : regexp.t) (s : string) :
  regexp.MatchString r s = true ↔ denotes r s.
Proof.
  revert r. induction s as [| c s IH]; intros r; simpl.
  - apply nullable_denotes.
  - rewrite IH. apply after_denotes.
Qed.

Lemma starOf_class (p : Ascii.ascii → bool) (s : string) :
  starOf (denotes (regexp.Class p)) s ↔ allChars p s = true.
Proof.
  split.
  - induction 1 as [| s1 s2 (c & -> & Hp) _ IH]; [reflexivity |].
    rewrite append_cons, append_nil_l. simpl. now rewrite Hp, IH.
  - induction s as [| c s IH]; simpl; intros Hall; [constructor |].
    apply andb_true_iff in Hall as (Hp & Hall).
    change (String c s) with (String c "" +:+ s). constructor; [| now apply IH].
    exists c. auto.
Qed.

Lemma alnum_labelChar (c : Ascii.ascii) : alnum c = true → labelChar c = true.
Proof. unfold labelChar. intros ->. reflexivity. Qed.

Lemma allChars_app p s1 s2 :
  allChars p (s1 +:+ s2) = allChars p s1 && allChars p s2.
Proof.
  induction s1 as [| c s1 IH]; [reflexivity |].
  rewrite append_cons. simpl. now rewrite IH, andb_assoc.
Qed.

Lemma someChar_app p s1 s2 :
  someChar p (s1 +:+ s2) = someChar p s1 || someChar p s2.
Proof.
  induction s1 as [| c s1 IH]; [reflexivity |].
  rewrite append_cons. simpl. now rewrite IH, orb_assoc.
Qed.

Lemma someChar_split p s :
  someChar p s = true → ∃ s1 c s2, s = s1 +:+ String c s2 ∧ p c = true.
Proof.
  induction s as [| c s IH]; simpl; [discriminate |].
  destruct (p c) eqn:Hp; simpl.
  - intros _. exists "", c, s. auto.
  - intros Hs. destruct (IH Hs) as (s1 & c' & s2 & -> & Hc).
    exists (String c s1), c', s2. auto.
Qed.

(** The pattern of the labels: only characters of [[A-Za-z0-9 ._-]], and
    a letter or digit among them. *)
Lemma labelRe_MatchString (s : string) :
  regexp.MatchString labelRe s = allChars labelChar s && someChar alnum s.
Proof.
  apply eq_true_iff_eq. rewrite MatchString_denotes, andb_true_iff.
  unfold labelRe. simpl denotes. split.
  - intros (s1 & s2 & -> & H1 & s3 & s4 & -> & (c & -> & Hc) & H4).
    apply starOf_class in H1, H4.
    rewrite !allChars_app, !someChar_app. simpl.
    rewrite H1, H4, Hc, (alnum_labelChar _ Hc). simpl.
    split; [reflexivity | apply orb_true_r].
  - intros (Hall & Hsome).
    apply someChar_split in Hsome as (s1 & c & s2 & -> & Hc).
    rewrite allChars_app in Hall. simpl in Hall.
    apply andb_true_iff in Hall as (H1 & Hall).
    apply andb_true_iff in Hall as (_ & H2).
    exists s1, (String c s2). split; [reflexivity |].
    split; [now apply starOf_class |].
    exists (String c ""), s2. split; [reflexivity |].
    split; [exists c; auto | now apply starOf_class].
Qed.

(** ** [Connect] *)

(** X6. [Connect] refuses a label exactly when, once trimmed, it is not
    empty and has a character outside [[A-Za-z0-9 ._-]] or no letter or
    digit at all. It then returns its error before anything is downloaded and
    leaves the store as it is. An empty label passes. *)
Theorem Connect_label_gate
    {D : Decoders} {R : Type} {Repo : Repository R} {Cl : Client} {E : ConnectEnv R}
    (path notificationURL label : string) (r : R) :
  (labelRefused (strings_TrimSpace label) = true ↔
     strings_TrimSpace label ≠ ""
     ∧ (allChars labelChar (strings_TrimSpace label) = false
        ∨ someChar alnum (strings_TrimSpace label) = false))
  ∧ (labelRefused (strings_TrimSpace label) = true →
     Connect path notificationURL label r
       = (Returned (Some (errors_New "Label is not valid")), r)).
Proof.
  split.
  - unfold labelRefused. rewrite labelRe_MatchString.
    destruct (strings_TrimSpace label) as [| c s] eqn:Hl.
    + simpl. split; [discriminate | intros (Hne & _); congruence].
    + change (0 <? Z.of_nat (String.length (String c s))) with true.
      rewrite andb_true_l, negb_true_iff, andb_false_iff.
      split; [intros H; split; [discriminate | exact H] | intros (_ & H); exact H].
  - intros Href. unfold Connect. rewrite Href. reflexivity.
Qed.

(** [Connect] up to the point where the new source is saved. *)
Lemma Connect_reaches_snapshot
    {D : Decoders} {R : Type} {Repo : Repository R} {Cl : Client} {E : ConnectEnv R}
    (path notificationURL label : string) (r r1 : R)
    (notification : NotificationJSON.t) (snapshotFile : list Bytes * Bytes)
    (src : NRTMSource.t) :
  labelRefused (strings_TrimSpace label) = false →
  downloadNotificationFile notificationURL = (notification, []) →
  getSourceByURLAndLabel notificationURL (strings_TrimSpace label) r = None →
  ensureDirectoryExists path = None →
  fetchFileAndCheckHash (NotificationJSON.SnapshotRef notification) path
    = (snapshotFile, None) →
  saveNewSource
    (NewNRTMSource notification (strings_TrimSpace label) notificationURL)
    notification r = ((src, None), r1) →
  Connect path notificationURL label r
  = match withVars (newSnapshotVars src)
            (readJSONSeqRecords (fst snapshotFile) (snd snapshotFile)
               (snapshotObjectInsertFunc notification)) r1 with
    | (Returned (Some io_EOF), r2) => syncDeltas path notification src r2
    | (Returned err, r2) => (Returned err, r2)
    | (Panicked, r2) => (Panicked, r2)
    | (Exited, r2) => (Exited, r2)
    end.
Proof.
  intros Hlabel Hdl Hnew Hdir Hfetch Hsave.
  unfold Connect. rewrite Hlabel, Hdl. run. rewrite Hnew, Hdir, Hfetch, Hsave.
  cbn [fst snd].
  destruct (readJSONSeqRecords _ _ _ (r1, newSnapshotVars src)) as [[[[] |] | |] s2];
    reflexivity.
Qed.

(** X7. [Connect] saves the new source before it reads the snapshot, and
    does not take it back: when the first record of the snapshot is refused
    (it is not JSON, or its version is not the announced one), [Connect]
    returns that error and the store is the one [saveNewSource] left. *)
Theorem Connect_refused_snapshot_keeps_source
    {D : Decoders} {R : Type} {Repo : Repository R} {Cl : Client} {E : ConnectEnv R}
    (path notificationURL label : string) (r r1 : R)
    (notification : NotificationJSON.t)
    (hdrBytes : Bytes) (records : list Bytes) (final : Bytes)
    (src : NRTMSource.t) (e : Err) :
  labelRefused (strings_TrimSpace label) = false →
  downloadNotificationFile notificationURL = (notification, []) →
  getSourceByURLAndLabel notificationURL (strings_TrimSpace label) r = None →
  ensureDirectoryExists path = None →
  fetchFileAndCheckHash (NotificationJSON.SnapshotRef notification) path
    = ((hdrBytes :: records, final), None) →
  saveNewSource
    (NewNRTMSource notification (strings_TrimSpace label) notificationURL)
    notification r = ((src, None), r1) →
  fst (snapshotObjectInsertFunc notification hdrBytes None (r1, newSnapshotVars src))
    = Returned (Some e) →
  e ≠ io_EOF →
  Connect path notificationURL label r = (Returned (Some e), r1).
Proof.
  intros Hlabel Hdl Hnew Hdir Hfetch Hsave Hhdr Hne.
  rewrite (Connect_reaches_snapshot _ _ _ _ _ _ _ _ Hlabel Hdl Hnew Hdir Hfetch Hsave).
  cbn [fst snd].
  assert (∃ vars1, snapshotObjectInsertFunc notification hdrBytes None
                     (r1, newSnapshotVars src) = (Returned (Some e), (r1, vars1)))
    as (vars1 & Hcb).
  { rewrite snapshot_header_checks in Hhdr |- *.
    destruct (json_Unmarshal_SnapshotFileJSON hdrBytes) as [e0 | sf].
    - cbn in Hhdr. injection Hhdr as ->. eauto.
    - destruct (_ =? _); cbn in Hhdr; [discriminate |].
      injection Hhdr as <-. eauto. }
  pose proof (readJSONSeqRecords_first_error _ [] hdrBytes records final _ _ _ _
                (accepted_nil _ _) Hcb Hne) as Hfirst.
  unfold withVars. simpl app in Hfirst. rewrite Hfirst. cbn [fst].
  destruct e; try reflexivity. congruence.
Qed.

(** X8. A notification without deltas makes [Connect] fail after the
    snapshot has been taken in: the snapshot is read to its end, and then
    [syncDeltas] returns [ErrNRTMNoDeltasInNotification]. The store keeps
    what the snapshot left. *)
Theorem Connect_without_deltas
    {D : Decoders} {R : Type} {Repo : Repository R} {Cl : Client} {E : ConnectEnv R}
    (path notificationURL label : string) (r r1 r2 : R)
    (notification : NotificationJSON.t) (snapshotFile : list Bytes * Bytes)
    (src : NRTMSource.t) :
  labelRefused (strings_TrimSpace label) = false →
  downloadNotificationFile notificationURL = (notification, []) →
  getSourceByURLAndLabel notificationURL (strings_TrimSpace label) r = None →
  ensureDirectoryExists path = None →
  fetchFileAndCheckHash (NotificationJSON.SnapshotRef notification) path
    = (snapshotFile, None) →
  saveNewSource
    (NewNRTMSource notification (strings_TrimSpace label) notificationURL)
    notification r = ((src, None), r1) →
  withVars (newSnapshotVars src)
    (readJSONSeqRecords (fst snapshotFile) (snd snapshotFile)
       (snapshotObjectInsertFunc notification)) r1 = (Returned (Some io_EOF), r2) →
  NotificationJSON.DeltaRefs notification = None
  ∨ NotificationJSON.DeltaRefs notification = Some [] →
  Connect path notificationURL label r
    = (Returned (Some ErrNRTMNoDeltasInNotification), r2).
Proof.
  intros Hlabel Hdl Hnew Hdir Hfetch Hsave Hsnap Hrefs.
  rewrite (Connect_reaches_snapshot _ _ _ _ _ _ _ _ Hlabel Hdl Hnew Hdir Hfetch Hsave).
  rewrite Hsnap. unfold syncDeltas, findUpdates.
  destruct Hrefs as [-> | ->]; reflexivity.
Qed.

(** ** The snapshot pipeline *)

(** [incrementCounters], step by step. *)
Lemma incrementCounters_step {R} {Repo : Repository R} (res : option Rpsl.t)
    (r : R) (vars : SnapshotVars) :
  incrementCounters res (r, vars)
  = if Z.of_nat (length (RPSLObjectList.objects (addTo (objectList vars) res)))
       >=? rpslInsertBatchSize
    then
      if 0 <? Z.of_nat (length (take (Z.to_nat rpslInsertBatchSize)
                                  (RPSLObjectList.objects (addTo (objectList vars) res))))
      then
        match snapshotHeader vars with
        | None =>
            (Panicked,
             (r, setObjectList
                   (RPSLObjectList.mk
                      (drop (Z.to_nat rpslInsertBatchSize)
                         (RPSLObjectList.objects (addTo (objectList vars) res))))
                   (counted res vars)))
        | Some hdr =>
            match SaveSnapshotObjects (snapshotSource vars)
                    (take (Z.to_nat rpslInsertBatchSize)
                       (RPSLObjectList.objects (addTo (objectList vars) res)))
                    (SnapshotFileJSON.NrtmFileJSON hdr) r with
            | (Some _, r') =>
                (Exited,
                 (r', setObjectList
                        (RPSLObjectList.mk
                           (drop (Z.to_nat rpslInsertBatchSize)
                              (RPSLObjectList.objects (addTo (objectList vars) res))))
                        (counted res vars)))
            | (None, r') =>
                (Returned tt,
                 (r', setObjectList
                        (RPSLObjectList.mk
                           (drop (Z.to_nat rpslInsertBatchSize)
                              (RPSLObjectList.objects (addTo (objectList vars) res))))
                        (counted res vars)))
            end
        end
      else
        (Returned tt,
         (r, setObjectList
               (RPSLObjectList.mk
                  (drop (Z.to_nat rpslInsertBatchSize)
                     (RPSLObjectList.objects (addTo (objectList vars) res))))
               (counted res vars)))
    else (Returned tt, (r, setObjectList (addTo (objectList vars) res) (counted res vars))).
Proof.
  unfold incrementCounters.
  destruct res as [obj |]; run; unfold RPSLObjectList.GetBatch;
    cbn [addTo counted RPSLObjectList.objects RPSLObjectList.Add setObjectList
         incSuccessfulObjects incFailedObjects objectList fst snd snapshotHeader
         snapshotSource].
  - destruct (_ >=? _); [| reflexivity].
    change (rpslInsertBatchSize <? 0) with false. cbv iota. cbn [fst snd].
    destruct (0 <? _); [| reflexivity].
    destruct (snapshotHeader vars) as [hdr |]; [| reflexivity].
    cbn [fst snd].
    destruct (SaveSnapshotObjects _ _ _ r) as [[e |] r']; reflexivity.
  - destruct (_ >=? _); [| reflexivity].
    change (rpslInsertBatchSize <? 0) with false. cbv iota. cbn [fst snd].
    destruct (0 <? _); [| reflexivity].
    destruct (snapshotHeader vars) as [hdr |]; [| reflexivity].
    cbn [fst snd].
    destruct (SaveSnapshotObjects _ _ _ r) as [[e |] r']; reflexivity.
Qed.

Lemma addTo_objects (l : RPSLObjectList.t) (res : option Rpsl.t) :
  RPSLObjectList.objects (addTo l res) = RPSLObjectList.objects l ++ option_objects res.
Proof. destruct res; simpl; [reflexivity | now rewrite app_nil_r]. Qed.

(** X9. Snapshot objects are written in batches of exactly
    [rpslInsertBatchSize] objects. While a header is there and the buffer
    holds fewer objects than that, a call of [incrementCounters] that does
    not fill the buffer only counts and buffers: the store is not touched.
    The call that fills it hands the whole buffer to [SaveSnapshotObjects]
    and leaves it empty; if that write fails the process is ended
    ([log.Fatalln]), no error is returned. Either way the buffer is below
    the batch size again afterwards. *)
Theorem incrementCounters_batches {R : Type} {Repo : Repository R}
    (res : option Rpsl.t) (r : R) (vars : SnapshotVars) (hdr : SnapshotFileJSON.t) :
  snapshotHeader vars = Some hdr →
  Z.of_nat (length (RPSLObjectList.objects (objectList vars))) < rpslInsertBatchSize →
  (Z.of_nat (length (RPSLObjectList.objects (objectList vars) ++ option_objects res))
     < rpslInsertBatchSize →
   incrementCounters res (r, vars)
     = (Returned tt,
        (r, setObjectList (addTo (objectList vars) res) (counted res vars))))
  ∧ (Z.of_nat (length (RPSLObjectList.objects (objectList vars) ++ option_objects res))
       = rpslInsertBatchSize →
     incrementCounters res (r, vars)
       = (match fst (SaveSnapshotObjects (snapshotSource vars)
                       (RPSLObjectList.objects (objectList vars) ++ option_objects res)
                       (SnapshotFileJSON.NrtmFileJSON hdr) r) with
          | Some _ => Exited
          | None => Returned tt
          end,
          (snd (SaveSnapshotObjects (snapshotSource vars)
                  (RPSLObjectList.objects (objectList vars) ++ option_objects res)
                  (SnapshotFileJSON.NrtmFileJSON hdr) r),
           setObjectList (RPSLObjectList.mk []) (counted res vars))))
  ∧ Z.of_nat (length (RPSLObjectList.objects (objectList vars) ++ option_objects res))
      <= rpslInsertBatchSize.
Proof.
  intros Hh Hlen. rewrite incrementCounters_step, Hh, addTo_objects.
  set (buf := RPSLObjectList.objects (objectList vars) ++ option_objects res).
  assert (length buf ≤ S (length (RPSLObjectList.objects (objectList vars))))%nat
    as Hbuf by (unfold buf; rewrite length_app; destruct res; simpl; lia).
  unfold rpslInsertBatchSize in *.
  split; [| split; [| lia]].
  - intros Hlt. destruct (Z.geb_spec (Z.of_nat (length buf)) 1000); [lia | reflexivity].
  - intros Heq. destruct (Z.geb_spec (Z.of_nat (length buf)) 1000); [| lia].
    rewrite take_ge, drop_ge by lia.
    destruct (Z.ltb_spec 0 (Z.of_nat (length buf))); [| lia].
    destruct (SaveSnapshotObjects _ buf _ r) as [[e |] r']; reflexivity.
Qed.

Lemma incrementCounters_batches_witness :
  incrementCounters (Some Ex.route1) (Ex.newRepo, Ex.snapshotVars3)
  = (Returned tt,
     (Ex.newRepo,
      setObjectList (RPSLObjectList.mk [Ex.route1])
        (incSuccessfulObjects Ex.snapshotVars3))).
Proof.
  refine (proj1 (incrementCounters_batches (Some Ex.route1) Ex.newRepo Ex.snapshotVars3
                   Ex.header3 eq_refl _) _).
  - unfold rpslInsertBatchSize. simpl. lia.
  - unfold rpslInsertBatchSize. simpl. lia.
Defined.





(** X11. When the stream ends before a header has been accepted, the
    snapshot callback does not return an error: it panics on the missing
    header, with the store untouched. A stream of one record only, which the
    reader hands over together with the end of the stream, ends like that. *)
Theorem snapshot_end_before_header
    {D : Decoders} {R : Type} {Repo : Repository R}
    (notification : NotificationJSON.t) (bytes : Bytes) (r : R) (vars : SnapshotVars) :
  snapshotHeader vars = None →
  ∃ vars',
    snapshotObjectInsertFunc notification bytes (Some io_EOF) (r, vars)
      = (Panicked, (r, vars'))
    ∧ readJSONSeqRecords [] bytes (snapshotObjectInsertFunc notification) (r, vars)
      = (Panicked, (r, vars')).
Proof.
  intros Hh.
  assert (∃ vars', snapshotObjectInsertFunc notification bytes (Some io_EOF) (r, vars)
                   = (Panicked, (r, vars'))) as (vars' & Hcb).
  { unfold snapshotObjectInsertFunc. run.
    rewrite incrementCounters_step, Hh.
    destruct (_ >=? _).
    - destruct (0 <? _); [eexists; reflexivity |].
      cbn [fst snd snapshotHeader setObjectList counted]. 
      destruct (bytesToRPSL bytes); cbn; rewrite Hh; eexists; reflexivity.
    - cbn [fst snd]. destruct (bytesToRPSL bytes); cbn; rewrite Hh;
        eexists; reflexivity. }
  exists vars'. split; [exact Hcb |].
  cbn [readJSONSeqRecords]. run. now rewrite Hcb.
Qed.

(** ** Delta entries *)

(** X12. An entry of a delta file that cannot be applied leaves the
    store and the captured variables as they were: an entry that is not
    JSON, an object that is not RPSL and an unknown action are returned as
    errors; an [add_modify] entry without [object], and a [delete] entry
    without [object_class] or [primary_key], make the callback panic on the
    missing field. *)
Theorem applyDeltaFunc_entry_not_applied
    {D : Decoders} {R : Type} {Repo : Repository R}
    (notification : NotificationJSON.t) (deltaRef : FileRefJSON.t)
    (bytes : Bytes) (err : error) (r : R) (vars : DeltaVars) (hdr : DeltaFileJSON.t) :
  header vars = Some hdr →
  err = None ∨ err = Some io_EOF →
  (∀ e, json_Unmarshal_DeltaJSON bytes = inl e →
     applyDeltaFunc notification deltaRef bytes err (r, vars)
       = (Returned (Some e), (r, vars)))
  ∧ (∀ delta,
       json_Unmarshal_DeltaJSON bytes = inr delta →
       (DeltaJSON.Action delta = DeltaAddModifyAction →
        (DeltaJSON.Object delta = None →
           applyDeltaFunc notification deltaRef bytes err (r, vars)
             = (Panicked, (r, vars)))
        ∧ (∀ text obj e,
             DeltaJSON.Object delta = Some text →
             rpsl_ParseString text = (obj, Some e) →
             applyDeltaFunc notification deltaRef bytes err (r, vars)
               = (Returned (Some e), (r, vars))))
       ∧ (DeltaJSON.Action delta = DeltaDeleteAction →
          DeltaJSON.ObjectClass delta = None ∨ DeltaJSON.PrimaryKey delta = None →
          applyDeltaFunc notification deltaRef bytes err (r, vars)
            = (Panicked, (r, vars)))
       ∧ (DeltaJSON.Action delta ≠ DeltaAddModifyAction →
          DeltaJSON.Action delta ≠ DeltaDeleteAction →
          applyDeltaFunc notification deltaRef bytes err (r, vars)
            = (Returned (Some (errors_New
                 ("no delta action available: " +:+ DeltaJSON.Action delta))),
               (r, vars)))).
Proof.
  intros Hh Herr.
  assert (applyDeltaFunc notification deltaRef bytes err (r, vars)
          = applyDeltaFunc notification deltaRef bytes None (r, vars)) as ->
    by (destruct Herr as [-> | ->]; reflexivity).
  unfold applyDeltaFunc. run. rewrite Hh.
  split; [intros e ->; reflexivity |].
  intros delta ->. split; [| split].
  - intros ->. cbn. split.
    + intros ->. reflexivity.
    + intros text obj e -> ->. reflexivity.
  - intros Ha Hmissing. rewrite Ha. cbn.
    destruct Hmissing as [-> | Hpk]; [reflexivity |].
    rewrite Hpk. destruct (DeltaJSON.ObjectClass delta); reflexivity.
  - intros Hadd Hdel.
    rewrite (proj2 (String.eqb_neq _ _) Hadd), (proj2 (String.eqb_neq _ _) Hdel).
    reflexivity.
Qed.

(** ** [syncDeltas] *)

(** The reader does not return [nil]. *)
Lemma readJSONSeqRecords_not_nil {S} (fn : Bytes → error → M S error)
    (records : list Bytes) (final : Bytes) (s : S) :
  fst (readJSONSeqRecords records final fn s) ≠ Returned None.
Proof.
  revert s. induction records as [| bytes rest IH]; intros s;
    cbn [readJSONSeqRecords]; run.
  - destruct (fn final (Some io_EOF) s) as [[[e |] | |] s']; discriminate.
  - destruct (fn bytes None s) as [[[e |] | |] s']; try discriminate; [| apply IH].
    destruct e; try discriminate. apply IH.
Qed.

(** X13. The delta files are applied one after the other, and the first
    one that fails ends the sync: applying [l1 ++ l2] is applying [l1] and,
    only if that went through, applying [l2] to the store it left. What the
    earlier files wrote stays. *)
Theorem applyDeltas_app
    {D : Decoders} {R : Type} {Repo : Repository R} {Cl : Client}
    (path : string) (notification : NotificationJSON.t) (source : NRTMSource.t)
    (l1 l2 : list FileRefJSON.t) (r : R) :
  applyDeltas path notification source (l1 ++ l2) r
  = match applyDeltas path notification source l1 r with
    | (Returned None, r1) => applyDeltas path notification source l2 r1
    | failed => failed
    end.
Proof.
  revert r. induction l1 as [| deltaRef rest IH]; intros r; [reflexivity |].
  cbn [app applyDeltas].
  destruct (fetchFileAndCheckHash deltaRef path) as [file [e |]]; [reflexivity |].
  run.
  pose proof (readJSONSeqRecords_not_nil (applyDeltaFunc notification deltaRef)
                (fst file) (snd file) (r, mkDeltaVars None source)) as Hnn.
  destruct (readJSONSeqRecords _ _ _ (r, mkDeltaVars None source))
    as [[[e |] | |] s'] eqn:Hrun; try reflexivity.
  - destruct e; try reflexivity. apply IH.
  - exfalso. apply Hnn. reflexivity.
Qed.

(** ** [Update], twice *)

(** The callback on the first record of a delta file. *)
Lemma applyDeltaFunc_first {D : Decoders} {R} {Repo : Repository R}
    notification deltaRef bytes (r : R) src :
  applyDeltaFunc notification deltaRef bytes None (r, mkDeltaVars None src)
  = match json_Unmarshal_DeltaFileJSON bytes with
    | inl e => (Returned (Some e), (r, mkDeltaVars None src))
    | inr deltaHeader =>
        match validateDeltaHeader (DeltaFileJSON.NrtmFileJSON deltaHeader)
                src deltaRef with
        | Some e => (Returned (Some e), (r, mkDeltaVars None src))
        | None =>
            (Returned (snd (fst (SaveSource
                 (NRTMSource.setVersion src (FileRefJSON.Version deltaRef))
                 notification r))),
             (snd (SaveSource
                     (NRTMSource.setVersion src (FileRefJSON.Version deltaRef))
                     notification r),
              mkDeltaVars (Some deltaHeader)
                (NRTMSource.setVersion src (FileRefJSON.Version deltaRef))))
        end
    end.
Proof.
  destruct (json_Unmarshal_DeltaFileJSON bytes) as [e | deltaHeader] eqn:Hj.
  - unfold applyDeltaFunc. run. now rewrite Hj.
  - destruct (validateDeltaHeader _ src deltaRef) as [e |] eqn:Hv.
    + apply (applyDeltaFunc_header_rejected _ _ _ deltaHeader); auto.
    + apply (applyDeltaFunc_header_accepted _ _ _ deltaHeader); auto.
Qed.

Lemma upsert_upsert (s1 s2 : NRTMSource.t) (l : list NRTMSource.t) :
  NRTMSource.ID s1 = NRTMSource.ID s2 →
  MemRepo.upsert s2 (MemRepo.upsert s1 l) = MemRepo.upsert s2 l.
Proof.
  intros Hid. induction l as [| x l IH]; simpl.
  - now rewrite Hid, Z.eqb_refl.
  - destruct (Z.eqb_spec (NRTMSource.ID x) (NRTMSource.ID s1)) as [Hx | Hx]; simpl.
    + rewrite Hid, Z.eqb_refl.
      now rewrite (proj2 (Z.eqb_eq _ _)) by congruence.
    + rewrite (proj2 (Z.eqb_neq _ _)) by congruence. now rewrite IH.
Qed.

(** With one record per id, the source found under a name and label is
    the one [SaveSource] replaces. *)
Lemma lookup_upsert (name label : string) (s s' : NRTMSource.t)
    (l : list NRTMSource.t) :
  NoDup (List.map NRTMSource.ID l) →
  List.find (fun x => String.eqb (NRTMSource.Source x) name
                      && String.eqb (NRTMSource.Label x) label) l = Some s →
  NRTMSource.ID s' = NRTMSource.ID s →
  NRTMSource.Source s' = NRTMSource.Source s →
  NRTMSource.Label s' = NRTMSource.Label s →
  List.find (fun x => String.eqb (NRTMSource.Source x) name
                      && String.eqb (NRTMSource.Label x) label)
    (MemRepo.upsert s' l) = Some s'.
Proof.
  intros Hnd Hfind Hid Hsrc Hlab.
  pose proof (find_some _ _ Hfind) as (Hin & Hp).
  assert (String.eqb (NRTMSource.Source s') name
          && String.eqb (NRTMSource.Label s') label = true) as Hp'
    by now rewrite Hsrc, Hlab.
  induction l as [| x l IH]; [inversion Hin |].
  simpl in Hnd. apply NoDup_cons in Hnd as (Hnin & Hnd).
  simpl in Hfind. simpl.
  destruct (String.eqb (NRTMSource.Source x) name
            && String.eqb (NRTMSource.Label x) label) eqn:Hx.
  - injection Hfind as ->. rewrite Hid, Z.eqb_refl. simpl. now rewrite Hp'.
  - pose proof (find_some _ _ Hfind) as (Hin' & _).
    destruct (Z.eqb_spec (NRTMSource.ID x) (NRTMSource.ID s')) as [Heq | Hneq].
    + exfalso. apply Hnin. rewrite Heq, Hid.
      apply list_elem_of_In, in_map, Hin'.
    + simpl. rewrite Hx. now apply IH.
Qed.

(** A delta file that is read to its end has saved the source at the
    version of its reference, and the entries leave the source records
    alone. *)
Lemma applyDelta_MemRepo_sources {D : Decoders}
    (notification : NotificationJSON.t) (deltaRef : FileRefJSON.t)
    (src : NRTMSource.t) (records : list Bytes) (final : Bytes) (r r1 : MemRepo.t) :
  (∀ bytes, json_Unmarshal_DeltaFileJSON bytes ≠ inl io_EOF) →
  withVars (mkDeltaVars None src)
    (readJSONSeqRecords records final (applyDeltaFunc notification deltaRef)) r
    = (Returned (Some io_EOF), r1) →
  MemRepo.sources r1
    = MemRepo.upsert (NRTMSource.setVersion src (FileRefJSON.Version deltaRef))
        (MemRepo.sources r).
Proof.
  intros Hjson. unfold withVars.
  destruct records as [| bytes rest]; cbn [readJSONSeqRecords]; run.
  - change (applyDeltaFunc notification deltaRef final (Some io_EOF))
      with (applyDeltaFunc notification deltaRef final None).
    rewrite applyDeltaFunc_first.
    destruct (json_Unmarshal_DeltaFileJSON final) as [e | h] eqn:Hj.
    + intros [= -> _]. exfalso. now apply (Hjson final).
    + destruct (validateDeltaHeader _ src deltaRef) as [e |] eqn:Hv.
      * intros [= -> _]. now apply validateDeltaHeader_not_EOF in Hv.
      * cbn. intros [= <-]. reflexivity.
  - rewrite applyDeltaFunc_first.
    destruct (json_Unmarshal_DeltaFileJSON bytes) as [e | h] eqn:Hj.
    + destruct e; try (intros [= _]; fail). exfalso. now apply (Hjson bytes).
    + destruct (validateDeltaHeader _ src deltaRef) as [e |] eqn:Hv.
      * pose proof (validateDeltaHeader_not_EOF _ _ _ _ Hv).
        destruct e; try (intros [= _]; fail). congruence.
      * cbn [SaveSource MemRepo_Repository MemRepo.saveSource fst snd].
        set (r0 := MemRepo.mk _ _ _ _).
        set (vars1 := mkDeltaVars (Some h) _).
        destruct (readJSONSeqRecords rest final _ (r0, vars1)) as [res s'] eqn:Hrest.
        apply (readJSONSeqRecords_entries _ _ _ _ _ vars1 h) in Hrest;
          [| reflexivity].
        apply MemRepo_objectOps_sources in Hrest.
        intros [= _ <-]. rewrite Hrest. reflexivity.
Qed.

(** A sync that went through has saved the source at the version of the
    last reference. *)
Lemma applyDeltas_MemRepo_sources {D : Decoders} {Cl : Client}
    (path : string) (notification : NotificationJSON.t) (src : NRTMSource.t)
    (l : list FileRefJSON.t) (r r' : MemRepo.t) :
  (∀ bytes, json_Unmarshal_DeltaFileJSON bytes ≠ inl io_EOF) →
  applyDeltas path notification src l r = (Returned None, r') →
  match last l with
  | None => r' = r
  | Some deltaRef =>
      MemRepo.sources r'
        = MemRepo.upsert (NRTMSource.setVersion src (FileRefJSON.Version deltaRef))
            (MemRepo.sources r)
  end.
Proof.
  intros Hjson. revert r.
  induction l as [| deltaRef rest IH]; intros r; cbn [applyDeltas].
  - intros [= <-]. reflexivity.
  - destruct (fetchFileAndCheckHash deltaRef path) as [file [e |]];
      [intros [= _]; fail |].
    run.
    pose proof (readJSONSeqRecords_not_nil (applyDeltaFunc notification deltaRef)
                  (fst file) (snd file) (r, mkDeltaVars None src)) as Hnn.
    pose proof (applyDelta_MemRepo_sources notification deltaRef src
                  (fst file) (snd file) r) as Hone.
    unfold withVars in Hone.
    destruct (readJSONSeqRecords _ _ _ (r, mkDeltaVars None src))
      as [[[e |] | |] s'] eqn:Hrun; try (intros [= _]; fail).
    + destruct e; try (intros [= _]; fail).
      specialize (Hone (fst s') Hjson eq_refl).
      intros Hrest. specialize (IH _ Hrest).
      destruct rest as [| d rest'].
      * cbn in IH |- *. subst r'. exact Hone.
      * change (last (deltaRef :: d :: rest')) with (last (d :: rest')).
        destruct (last (d :: rest')) as [d' |] eqn:Hlast;
          [| apply last_None in Hlast; discriminate].
        rewrite IH, Hone. apply upsert_upsert. reflexivity.
    + exfalso. apply Hnn. reflexivity.
Qed.

Lemma findUpdates_success_max notification source deltaRefs :
  findUpdates notification source = (deltaRefs, None) →
  ∃ refs,
    refs ≠ []
    ∧ maxOf (List.map FileRefJSON.Version refs) = NotificationJSON.Version notification
    ∧ deltaRefs = List.filter (fun d =>
        NRTMSource.Version source <? FileRefJSON.Version d) refs.
Proof.
  intros Hres.
  destruct (NotificationJSON.DeltaRefs notification) as [refs |] eqn:Href;
    [| unfold findUpdates in Hres; rewrite Href in Hres; discriminate].
  destruct (decide (refs = [])) as [-> | Hne];
    [unfold findUpdates in Hres; rewrite Href in Hres; discriminate |].
  exists refs. split; [assumption |].
  rewrite (findUpdates_some _ _ _ Href Hne) in Hres.
  destruct (negb (Nat.eqb _ _)) in Hres; [discriminate |].
  rewrite (sorted_last_maxOf _ (versions_nonempty _ Hne)) in Hres.
  destruct (Z.eqb_spec (maxOf (List.map FileRefJSON.Version refs))
              (NotificationJSON.Version notification)) as [Hmax |];
    [| discriminate].
  simpl negb in Hres.
  destruct (negb (contiguous _)) in Hres; [discriminate |].
  destruct (_ <? _) in Hres; [discriminate |].
  injection Hres as <-. split; [assumption | reflexivity].
Qed.

Lemma sorted_last_greatest (l : list FileRefJSON.t) (d x : FileRefJSON.t) :
  StronglySorted fileRefsByVersion l → last l = Some d → x ∈ l →
  FileRefJSON.Version x <= FileRefJSON.Version d.
Proof.
  induction 1 as [| a l Hs IH Hhd]; intros Hlast Hx; [inversion Hx |].
  destruct l as [| b l].
  - injection Hlast as <-. apply list_elem_of_singleton in Hx. subst. lia.
  - rewrite last_cons_cons in Hlast.
    apply elem_of_cons in Hx as [-> | Hx]; [| now apply IH].
    rewrite Forall_forall in Hhd.
    assert (d ∈ b :: l) as Hd by (apply last_Some_elem_of; assumption).
    apply Hhd in Hd. exact Hd.
Qed.

(** The last reference a sync applies has the version of the
    notification. *)
Lemma findUpdates_last_version notification source deltaRefs :
  findUpdates notification source = (deltaRefs, None) →
  NRTMSource.Version source < NotificationJSON.Version notification →
  ∃ d, last (sortFileRefs deltaRefs) = Some d
       ∧ FileRefJSON.Version d = NotificationJSON.Version notification.
Proof.
  intros Hres Hlt.
  destruct (findUpdates_success_max _ _ _ Hres) as (refs & Hne & Hmax & ->).
  pose proof (versions_nonempty _ Hne) as Hvne.
  destruct (maxOf_spec _ Hvne) as (Hin & Hub).
  apply elem_of_versions in Hin as (top & Htop & Hv).
  set (newer := List.filter _ refs).
  assert (top ∈ sortFileRefs newer) as Htop'.
  { rewrite sortFileRefs_Permutation. apply elem_of_newer. split; [assumption | lia]. }
  destruct (last (sortFileRefs newer)) as [d |] eqn:Hlast.
  - exists d. split; [reflexivity |].
    assert (StronglySorted fileRefsByVersion (sortFileRefs newer)) as Hs
      by (apply StronglySorted_merge_sort; apply _).
    pose proof (sorted_last_greatest _ _ _ Hs Hlast Htop') as Hge.
    assert (d ∈ refs) as Hd.
    { apply last_Some_elem_of in Hlast. rewrite sortFileRefs_Permutation in Hlast.
      now apply elem_of_newer in Hlast as (? & _). }
    rewrite Forall_forall in Hub.
    assert (FileRefJSON.Version d <= maxOf (List.map FileRefJSON.Version refs))
      by (apply Hub, elem_of_versions; eauto).
    lia.
  - apply last_None in Hlast. rewrite Hlast in Htop'. inversion Htop'.
Qed.

(** X14. [Update] twice, in the in-memory store with one record per id
    and decoders that do not give [io.EOF] for an error: when [Update]
    returns [nil], the store holds the source at the version of the
    notification, and a second [Update] against the same notification
    returns [nil] and changes nothing. *)
Theorem Update_twice {D : Decoders} {Cl : Client}
    (path sourceName label : string) (r r' : MemRepo.t)
    (source : NRTMSource.t) (notification : NotificationJSON.t) :
  (∀ bytes, json_Unmarshal_DeltaFileJSON bytes ≠ inl io_EOF) →
  NoDup (List.map NRTMSource.ID (MemRepo.sources r)) →
  getSourceByNameAndLabel sourceName label r = Some source →
  downloadNotificationFile (NRTMSource.NotificationURL source) = (notification, []) →
  Update path sourceName label r = (Returned None, r') →
  getSourceByNameAndLabel sourceName label r'
    = Some (NRTMSource.setVersion source (NotificationJSON.Version notification))
  ∧ Update path sourceName label r' = (Returned None, r').
Proof.
  intros Hjson Hnd Hsrc Hdl Hupd.
  assert (∀ r0 : MemRepo.t,
            getSourceByNameAndLabel sourceName label r0
              = Some (NRTMSource.setVersion source
                        (NotificationJSON.Version notification)) →
            NotificationJSON.SessionID notification = NRTMSource.SessionID source →
            Update path sourceName label r0 = (Returned None, r0)) as Hagain.
  { intros r0 Hsrc0 Hsess. unfold Update. run. rewrite Hsrc0.
    change (NRTMSource.NotificationURL (NRTMSource.setVersion source _))
      with (NRTMSource.NotificationURL source).
    rewrite Hdl. cbn [length]. change (0 <? Z.of_nat 0) with false. cbv iota.
    change (NRTMSource.SessionID (NRTMSource.setVersion source _))
      with (NRTMSource.SessionID source).
    rewrite (proj2 (String.eqb_eq _ _) Hsess). cbn [negb].
    change (NRTMSource.Version (NRTMSource.setVersion source
                                  (NotificationJSON.Version notification)))
      with (NotificationJSON.Version notification).
    now rewrite Z.ltb_irrefl, Z.eqb_refl. }
  revert Hupd. unfold Update. run. rewrite Hsrc, Hdl.
  cbn [length]. change (0 <? Z.of_nat 0) with false. cbv iota.
  destruct (String.eqb_spec (NotificationJSON.SessionID notification)
              (NRTMSource.SessionID source)) as [Hsess |]; cbn [negb];
    [| intros [= _]; fail].
  destruct (Z.ltb_spec (NotificationJSON.Version notification)
              (NRTMSource.Version source)) as [| Hge]; [intros [= _]; fail |].
  destruct (Z.eqb_spec (NotificationJSON.Version notification)
              (NRTMSource.Version source)) as [Heq | Hneq].
  - intros [= <-].
    assert (NRTMSource.setVersion source (NotificationJSON.Version notification)
            = source) as Hsame by (rewrite Heq; destruct source; reflexivity).
    rewrite Hsame in *. split; [assumption | now apply Hagain].
  - unfold syncDeltas.
    destruct (findUpdates notification source) as [deltaRefs [e |]] eqn:Hfind;
      [intros [= _]; fail |].
    intros Hsync.
    destruct (findUpdates_last_version _ _ _ Hfind ltac:(lia)) as (d & Hlast & Hv).
    pose proof (applyDeltas_MemRepo_sources path notification source _ r r'
                  Hjson Hsync) as Hsources.
    rewrite Hlast, Hv in Hsources.
    assert (getSourceByNameAndLabel sourceName label r'
            = Some (NRTMSource.setVersion source
                      (NotificationJSON.Version notification))) as Hsrc'.
    { cbn [getSourceByNameAndLabel MemRepo_Repository]. unfold MemRepo.lookup.
      rewrite Hsources. apply (lookup_upsert _ _ source); auto. }
    split; [exact Hsrc' | now apply Hagain].
Qed.

(** ** Errors of the reader *)

(** X15. When the reader reports an error that is not [io.EOF], neither
    callback looks at the record or touches the store or its variables. The
    delta callback hands every such error back, which ends the file. The
    snapshot callback does the same, except for [persist.ErrNoEntity], an
    empty record: there it returns [nil], and the reader goes on. *)
Theorem callbacks_on_reader_errors
    {D : Decoders} {R : Type} {Repo : Repository R}
    (notification : NotificationJSON.t) (deltaRef : FileRefJSON.t)
    (bytes : Bytes) (e : Err) (r : R) (dvars : DeltaVars) (svars : SnapshotVars) :
  e ≠ io_EOF →
  applyDeltaFunc notification deltaRef bytes (Some e) (r, dvars)
    = (Returned (Some e), (r, dvars))
  ∧ snapshotObjectInsertFunc notification bytes (Some e) (r, svars)
    = (Returned (if decide (e = persist_ErrNoEntity) then None else Some e),
       (r, svars)).
Proof.
  intros Hne. destruct e; try congruence; split; reflexivity.
Qed.

(** ** The name of a snapshot file *)

Lemma substring_all (s : string) : String.substring 0 (String.length s) s = s.
Proof. induction s as [| c s IH]; simpl; [reflexivity | now rewrite IH]. Qed.

Lemma substring_skip (s1 s2 : string) (n : nat) :
  String.substring (String.length s1) n (s1 +:+ s2) = String.substring 0 n s2.
Proof.
  induction s1 as [| c s1 IH]; [reflexivity |].
  rewrite append_cons. simpl. exact IH.
Qed.

Lemma length_append (s1 s2 : string) :
  String.length (s1 +:+ s2) = (String.length s1 + String.length s2)%nat.
Proof.
  induction s1 as [| c s1 IH]; [reflexivity |].
  rewrite append_cons. simpl. now rewrite IH.
Qed.

Lemma substring_split (s : string) (n : nat) :
  (n ≤ String.length s)%nat →
  ∃ s1, s = s1 +:+ String.substring n (String.length s - n) s
        ∧ String.length s1 = n.
Proof.
  revert s. induction n as [| n IH]; intros s Hn.
  - exists "". rewrite Nat.sub_0_r, substring_all. auto.
  - destruct s as [| c s]; [simpl in Hn; lia |].
    destruct (IH s ltac:(simpl in Hn; lia)) as (s1 & Heq & Hlen).
    exists (String c s1). rewrite append_cons. simpl. split; [congruence | lia].
Qed.

(** X16. The gzip test of [readSnapshotRecords] slices the last three
    bytes off the file name: on a name of fewer than three bytes the slice
    expression panics; on any other name the test holds exactly when the name
    ends in [.gz]. *)
Theorem hasGzipExtension_spec (name : string) :
  ((String.length name < 3)%nat ↔ hasGzipExtension name = None)
  ∧ (hasGzipExtension name = Some true ↔ ∃ stem, name = stem +:+ ".gz").
Proof.
  unfold hasGzipExtension, GZIP_SNAPSHOT_EXTENTION.
  change (Z.of_nat (String.length ".gz")) with 3.
  destruct (Z.ltb_spec (Z.of_nat (String.length name) - 3) 0) as [Hshort | Hlong].
  - split; [split; [reflexivity | lia] |].
    split; [discriminate |].
    intros (stem & ->). rewrite length_append in Hshort. simpl in Hshort. lia.
  - split; [split; [lia | discriminate] |].
    assert (Z.to_nat (Z.of_nat (String.length name) - 3) = String.length name - 3)%nat
      as -> by lia.
    destruct (substring_split name (String.length name - 3) ltac:(lia))
      as (stem & Heq & Hlen).
    set (tail := String.substring _ _ name) in *.
    split.
    + intros [= Htail]. apply String.eqb_eq in Htail. exists stem. congruence.
    + intros (stem' & Hname). f_equal. apply String.eqb_eq.
      assert (String.length tail = 3)%nat as Htl.
      { pose proof (f_equal String.length Heq) as Hl.
        rewrite length_append in Hl. lia. }
      assert (String.length stem' = String.length stem) as Hsl.
      { pose proof (f_equal String.length Hname) as Hl.
        rewrite length_append in Hl. simpl in Hl. lia. }
      rewrite Hname in Heq.
      pose proof (f_equal (String.substring (String.length stem') 3) Heq) as Hsub.
      rewrite substring_skip in Hsub. rewrite Hsl, substring_skip in Hsub.
      rewrite <- Htl, substring_all in Hsub. rewrite Htl in Hsub.
      simpl in Hsub. congruence.
Qed.
(** * The service on concrete files *)

#[local] Existing Instance Ex.decoders.

Lemma applyDelta_header_save_is_kept_witness :
  objectOps
    (snd (SaveSource (NRTMSource.setVersion (Ex.sourceAt 4) 5)
            (Ex.notificationOf 5 [5]) (Ex.repoAt 4 None)))
    (snd (withVars (mkDeltaVars None (Ex.sourceAt 4))
            (readJSONSeqRecords [Ex.deltaHeader5; Ex.addRoute2; Ex.replaceRoute1]
               Ex.deleteRoute1
               (applyDeltaFunc (Ex.notificationOf 5 [5]) (Ex.ref 5)))
            (Ex.repoAt 4 None))).
Proof.
  refine (proj1 (proj2 (applyDelta_header_save_is_kept
    (Ex.notificationOf 5 [5]) (Ex.ref 5) (Ex.sourceAt 4) Ex.deltaHeader5
    Ex.header5 [Ex.addRoute2; Ex.replaceRoute1] Ex.deleteRoute1 (Ex.repoAt 4 None)
    (fst (withVars (mkDeltaVars None (Ex.sourceAt 4))
            (readJSONSeqRecords [Ex.deltaHeader5; Ex.addRoute2; Ex.replaceRoute1]
               Ex.deleteRoute1
               (applyDeltaFunc (Ex.notificationOf 5 [5]) (Ex.ref 5)))
            (Ex.repoAt 4 None)))
    _ _ _) _)).
  - vm_compute. reflexivity.
  - symmetry. apply surjective_pairing.
  - vm_compute. reflexivity.
Defined.

(** C1, as stated, fails. The delta file of version 5 has a header in
    order, an entry that is applied and an entry with an action that does
    not exist. Applying it to the source at version 4 fails with the error of
    the third record, and the store holds the source at version 5 and the
    object of the second record. *)
Lemma applyDelta_failed_file_keeps_new_version :
  MemRepo.persistedVersion 1 (Ex.repoAt 4 None) = Some 4
  ∧ fst (withVars (mkDeltaVars None (Ex.sourceAt 4))
           (readJSONSeqRecords [Ex.deltaHeader5; Ex.addRoute2; Ex.replaceRoute1]
              Ex.deleteRoute1
              (applyDeltaFunc (Ex.notificationOf 5 [5]) (Ex.ref 5)))
           (Ex.repoAt 4 None))
    = Returned (Some (errors_New "no delta action available: replace"))
  ∧ MemRepo.persistedVersion 1
      (snd (withVars (mkDeltaVars None (Ex.sourceAt 4))
              (readJSONSeqRecords [Ex.deltaHeader5; Ex.addRoute2; Ex.replaceRoute1]
                 Ex.deleteRoute1
                 (applyDeltaFunc (Ex.notificationOf 5 [5]) (Ex.ref 5)))
              (Ex.repoAt 4 None)))
    = Some 5
  ∧ MemRepo.objects
      (snd (withVars (mkDeltaVars None (Ex.sourceAt 4))
              (readJSONSeqRecords [Ex.deltaHeader5; Ex.addRoute2; Ex.replaceRoute1]
                 Ex.deleteRoute1
                 (applyDeltaFunc (Ex.notificationOf 5 [5]) (Ex.ref 5)))
              (Ex.repoAt 4 None)))
    = [(1, Ex.route2); (1, Ex.route1)].
Proof. repeat split; vm_compute; reflexivity. Qed.

(** The other ways an entry fails leave the new version in the store as
    well: an entry that is not JSON, and an object that is not RPSL. *)
Example applyDelta_failed_entries :
  (let run := withVars (mkDeltaVars None (Ex.sourceAt 4))
                (readJSONSeqRecords [Ex.deltaHeader5; Ex.truncated] Ex.deleteRoute1
                   (applyDeltaFunc (Ex.notificationOf 5 [5]) (Ex.ref 5)))
                (Ex.repoAt 4 None) in
   fst run = Returned (Some (lib_error "json" "invalid character"))
   ∧ MemRepo.persistedVersion 1 (snd run) = Some 5)
  ∧ (let run := withVars (mkDeltaVars None (Ex.sourceAt 4))
                  (readJSONSeqRecords [Ex.deltaHeader5; Ex.addGarbage] Ex.deleteRoute1
                     (applyDeltaFunc (Ex.notificationOf 5 [5]) (Ex.ref 5)))
                  (Ex.repoAt 4 None) in
     fst run = Returned (Some (lib_error "rpsl" "not an RPSL object"))
     ∧ MemRepo.persistedVersion 1 (snd run) = Some 5).
Proof. repeat split; vm_compute; reflexivity. Qed.

(** ** A delete that the store refuses *)

(** C6, on a store that refuses deletes. The delta file of version 5
    deletes [route1]. [DeleteObject] returns an error; the callback returns
    [nil] on that record, the reader goes on to the end of the file and
    reports it as read, and the object is still in the store. The entry
    before it shows the other path: an error of [AddModifyObject] would have
    been returned. *)
Theorem applyDelta_delete_error_is_dropped :
  fst (DeleteObject (Ex.sourceAt 5) "route" (Rpsl.PrimaryKey Ex.route1)
         (DeltaFileJSON.NrtmFileJSON Ex.header5) (Ex.repoAt 5 (Some Ex.deleteFault)))
    = Some Ex.deleteFault
  ∧ applyDeltaFunc (Ex.notificationOf 5 [5]) (Ex.ref 5) Ex.deleteRoute1 None
      (Ex.repoAt 5 (Some Ex.deleteFault), Ex.deltaVars5)
    = (Returned None, (Ex.repoAt 5 (Some Ex.deleteFault), Ex.deltaVars5))
  ∧ fst (withVars (mkDeltaVars None (Ex.sourceAt 4))
           (readJSONSeqRecords [Ex.deltaHeader5; Ex.deleteRoute1] Ex.addRoute2
              (applyDeltaFunc (Ex.notificationOf 5 [5]) (Ex.ref 5)))
           (Ex.repoAt 4 (Some Ex.deleteFault)))
    = Returned (Some io_EOF)
  ∧ MemRepo.objects
      (snd (withVars (mkDeltaVars None (Ex.sourceAt 4))
              (readJSONSeqRecords [Ex.deltaHeader5; Ex.deleteRoute1] Ex.addRoute2
                 (applyDeltaFunc (Ex.notificationOf 5 [5]) (Ex.ref 5)))
              (Ex.repoAt 4 (Some Ex.deleteFault))))
    = [(1, Ex.route2); (1, Ex.route1)].
Proof. repeat split; vm_compute; reflexivity. Qed.

(** ** Snapshot records *)

(** C5, on a snapshot record that is JSON and whose object is not RPSL.
    The callback returns [nil], as the claim says; but the record counts as
    a success, not as a failure, and what the parser returned next to its
    error goes into the batch. At the end of the stream that object is
    saved with the others. A record that is not JSON is counted as a
    failure and adds nothing. *)
Theorem snapshot_unparsable_object_counts_as_success :
  rpsl_ParseString "garbage" = (Rpsl.mk "" "" "", Some (lib_error "rpsl" "not an RPSL object"))
  ∧ (let after :=
       snapshotObjectInsertFunc (Ex.notificationOf 3 []) Ex.objectGarbage None
         (Ex.newRepo, Ex.snapshotVars3) in
     fst after = Returned None
     ∧ successfulObjects (snd (snd after)) = successfulObjects Ex.snapshotVars3 + 1
     ∧ failedObjects (snd (snd after)) = failedObjects Ex.snapshotVars3
     ∧ RPSLObjectList.objects (objectList (snd (snd after))) = [Rpsl.mk "" "" ""])
  ∧ (let run :=
       withVars (newSnapshotVars (Ex.sourceAt 0))
         (readJSONSeqRecords [Ex.snapshotHeader3; Ex.objectGarbage] Ex.objectRoute2
            (snapshotObjectInsertFunc (Ex.notificationOf 3 []))) Ex.newRepo in
     fst run = Returned (Some io_EOF)
     ∧ MemRepo.objects (snd run) = [(1, Rpsl.mk "" "" ""); (1, Ex.route2)])
  ∧ (let after :=
       snapshotObjectInsertFunc (Ex.notificationOf 3 []) Ex.truncated None
         (Ex.newRepo, Ex.snapshotVars3) in
     fst after = Returned None
     ∧ successfulObjects (snd (snd after)) = successfulObjects Ex.snapshotVars3
     ∧ failedObjects (snd (snd after)) = failedObjects Ex.snapshotVars3 + 1
     ∧ RPSLObjectList.objects (objectList (snd (snd after))) = []).
Proof. repeat split; vm_compute; reflexivity. Qed.

(** C2, on a snapshot whose header is for another NRTM version, another
    source and another session, and has the version the notification
    announces. The callback accepts the header, the records after it are
    read, their objects are saved for the calling source and the source is
    saved at the version of the snapshot. *)
Theorem snapshot_foreign_header_is_accepted :
  json_Unmarshal_SnapshotFileJSON Ex.foreignHeader3
    = inr (SnapshotFileJSON.mk
             (NrtmFileJSON.mk 3 "snapshot" "OTHER" Ex.foreignSession 3))
  ∧ NRTMSource.Source (Ex.sourceAt 0) = "EXAMPLE"
  ∧ NRTMSource.SessionID (Ex.sourceAt 0) = Ex.session
  ∧ FileRefJSON.Version (NotificationJSON.SnapshotRef (Ex.notificationOf 3 [])) = 3
  ∧ fst (snapshotObjectInsertFunc (Ex.notificationOf 3 []) Ex.foreignHeader3 None
           (Ex.newRepo, newSnapshotVars (Ex.sourceAt 0)))
    = Returned None
  ∧ (let run :=
       withVars (newSnapshotVars (Ex.sourceAt 0))
         (readJSONSeqRecords [Ex.foreignHeader3; Ex.objectRoute1] Ex.objectRoute2
            (snapshotObjectInsertFunc (Ex.notificationOf 3 []))) Ex.newRepo in
     fst run = Returned (Some io_EOF)
     ∧ MemRepo.objects (snd run) = [(1, Ex.route1); (1, Ex.route2)]
     ∧ MemRepo.persistedVersion 1 (snd run) = Some 3).
Proof. repeat split; vm_compute; reflexivity. Qed.

(** The one condition of the four that is checked: a header with another
    version than the notification announces is refused, the reader stops
    there and nothing is saved. *)
Example snapshot_version_is_checked :
  withVars (newSnapshotVars (Ex.sourceAt 0))
    (readJSONSeqRecords [Ex.snapshotHeader3; Ex.objectRoute1] Ex.objectRoute2
       (snapshotObjectInsertFunc
          (NotificationJSON.mk
             (NrtmFileJSON.mk 4 "notification" "EXAMPLE" Ex.session 2)
             (Ex.ref 2) (Some [])))) Ex.newRepo
  = (Returned (Some ErrNRTMFileVersionMismatch), Ex.newRepo).
Proof. vm_compute. reflexivity. Qed.

(** ** [Update] and [ReplaceLabel] on a store *)

Lemma Update_checks_before_analysis_witness :
  getSourceByNameAndLabel "EXAMPLE" "" (Ex.repoAt 4 None) = Some (Ex.sourceAt 4)
  ∧ @Update _ _ _ (Ex.publisher 4 [4]) "/var/nrtm" "EXAMPLE" "" (Ex.repoAt 4 None)
    = (Returned None, Ex.repoAt 4 None).
Proof.
  split; [reflexivity |].
  destruct (@Update_checks_before_analysis Ex.decoders MemRepo.t MemRepo_Repository
              (Ex.publisher 4 [4])
              "/var/nrtm" "EXAMPLE" "" (Ex.repoAt 4 None) (Ex.sourceAt 4)
              (Ex.notificationOf 4 [4]) eq_refl eq_refl) as (_ & _ & _ & Hsame).
  apply Hsame; reflexivity.
Defined.

(** With a newer notification [Update] goes on to the deltas. *)
Example Update_applies_delta :
  fst (@Update _ _ _ (Ex.publisher 5 [5]) "/var/nrtm" "EXAMPLE" "" (Ex.repoAt 4 None))
    = Returned None
  ∧ MemRepo.persistedVersion 1
      (snd (@Update _ _ _ (Ex.publisher 5 [5]) "/var/nrtm" "EXAMPLE" ""
              (Ex.repoAt 4 None))) = Some 5
  ∧ MemRepo.objects
      (snd (@Update _ _ _ (Ex.publisher 5 [5]) "/var/nrtm" "EXAMPLE" ""
              (Ex.repoAt 4 None))) = [(1, Ex.route2)].
Proof. repeat split; vm_compute; reflexivity. Qed.

Lemma ReplaceLabel_already_exists_iff_witness :
  (∀ s r0, fst (db_Update (R := MemRepo.t) s r0) ≠ Some ErrSourceAlreadyExists)
  ∧ ReplaceLabel "EXAMPLE" "" "backup" Ex.repoTwo
    = (Returned (None, Some ErrSourceAlreadyExists), Ex.repoTwo)
  ∧ ReplaceLabel "EXAMPLE" "" "main" Ex.repoTwo
    = (Returned (Some (NRTMSource.setLabel (Ex.sourceAt 4) "main"), None),
       MemRepo.mk [NRTMSource.setLabel (Ex.sourceAt 4) "main"; Ex.backup] [] [] None).
Proof.
  assert (∀ s r0, fst (db_Update (R := MemRepo.t) s r0) ≠ Some ErrSourceAlreadyExists)
    as Hdb by (intros s r0; discriminate).
  split; [exact Hdb |]. split.
  - destruct (ReplaceLabel_already_exists_iff "EXAMPLE" "" "backup" Ex.repoTwo Hdb)
      as [_ Hsome].
    destruct (Hsome (Ex.sourceAt 4) eq_refl) as (_ & Htaken & _).
    apply Htaken. discriminate.
  - destruct (ReplaceLabel_already_exists_iff "EXAMPLE" "" "main" Ex.repoTwo Hdb)
      as [_ Hsome].
    destruct (Hsome (Ex.sourceAt 4) eq_refl) as (_ & _ & Hfree).
    destruct (Hfree eq_refl) as [Heq _]. exact Heq.
Defined.

(** C9, as stated, fails: a source [(EXAMPLE, backup)] exists, and
    [ReplaceLabel] with a label to replace that no source has fails with
    another error than [ErrSourceAlreadyExists]. *)
Lemma ReplaceLabel_unknown_source :
  getSourceByNameAndLabel "EXAMPLE" "backup" Ex.repoTwo = Some Ex.backup
  ∧ getSourceByNameAndLabel "EXAMPLE" "mirror" Ex.repoTwo = None
  ∧ ReplaceLabel "EXAMPLE" "mirror" "backup" Ex.repoTwo
    = (Returned (None,
         Some (errors_New "cannot find source with given name and label")),
       Ex.repoTwo)
  ∧ errors_New "cannot find source with given name and label"
    ≠ ErrSourceAlreadyExists.
Proof. repeat split; try (vm_compute; reflexivity). discriminate. Qed.

(** ** [Connect], the snapshot and [Update] on concrete files *)

Lemma Connect_refused_snapshot_keeps_source_witness :
  @Connect Ex.decoders MemRepo.t MemRepo_Repository
    (Ex_publisherWithSnapshot 5 [5] Ex_brokenSnapshot) (Table_connectEnv 1)
    "/var/nrtm" Ex.url "" Ex_emptyRepo
  = (Returned (Some (lib_error "json" "invalid character")),
     MemRepo.mk [Ex.sourceAt 5] [(1, Ex.notificationOf 5 [5])] [] None).
Proof.
  apply (@Connect_refused_snapshot_keeps_source Ex.decoders MemRepo.t
           MemRepo_Repository (Ex_publisherWithSnapshot 5 [5] Ex_brokenSnapshot)
           (Table_connectEnv 1) "/var/nrtm" Ex.url "" Ex_emptyRepo
           (MemRepo.mk [Ex.sourceAt 5] [(1, Ex.notificationOf 5 [5])] [] None)
           (Ex.notificationOf 5 [5]) Ex.truncated [Ex.objectRoute1] Ex.objectRoute2
           (Ex.sourceAt 5) (lib_error "json" "invalid character"));
    try reflexivity.
  discriminate.
Defined.

(** The source that the failed [Connect] left cannot be connected again. *)
Example Connect_again_after_refused_snapshot :
  fst (@Connect Ex.decoders MemRepo.t MemRepo_Repository
         (Ex_publisherWithSnapshot 5 [5] Ex_snapshot3) (Table_connectEnv 2)
         "/var/nrtm" Ex.url ""
         (MemRepo.mk [Ex.sourceAt 5] [(1, Ex.notificationOf 5 [5])] [] None))
  = Returned (Some (errors_New "source already exists")).
Proof. vm_compute. reflexivity. Qed.

Lemma Connect_without_deltas_witness :
  @Connect Ex.decoders MemRepo.t MemRepo_Repository
    (Ex_publisherWithSnapshot 3 [] Ex_snapshot3) (Table_connectEnv 1)
    "/var/nrtm" Ex.url "" Ex_emptyRepo
  = (Returned (Some ErrNRTMNoDeltasInNotification),
     MemRepo.mk [Ex.sourceAt 3]
       [(1, Ex.notificationOf 3 []); (1, Ex.notificationOf 3 [])]
       [(1, Ex.route1); (1, Ex.route2)] None).
Proof.
  apply (@Connect_without_deltas Ex.decoders MemRepo.t
           MemRepo_Repository (Ex_publisherWithSnapshot 3 [] Ex_snapshot3)
           (Table_connectEnv 1) "/var/nrtm" Ex.url "" Ex_emptyRepo
           (MemRepo.mk [Ex.sourceAt 3] [(1, Ex.notificationOf 3 [])] [] None)
           _ (Ex.notificationOf 3 []) Ex_snapshot3 (Ex.sourceAt 3));
    try reflexivity.
  right. reflexivity.
Defined.


Lemma snapshot_end_before_header_witness :
  ∃ vars',
    snapshotObjectInsertFunc (Ex.notificationOf 5 [5]) Ex.snapshotHeader3
      (Some io_EOF) (Ex.newRepo, newSnapshotVars (Ex.sourceAt 0))
      = (Panicked, (Ex.newRepo, vars'))
    ∧ readJSONSeqRecords [] Ex.snapshotHeader3
        (snapshotObjectInsertFunc (Ex.notificationOf 5 [5]))
        (Ex.newRepo, newSnapshotVars (Ex.sourceAt 0))
      = (Panicked, (Ex.newRepo, vars')).
Proof.
  exact (@snapshot_end_before_header Ex.decoders MemRepo.t MemRepo_Repository
           (Ex.notificationOf 5 [5]) Ex.snapshotHeader3 Ex.newRepo
           (newSnapshotVars (Ex.sourceAt 0)) eq_refl).
Defined.

Lemma applyDeltaFunc_entry_not_applied_witness :
  applyDeltaFunc (Ex.notificationOf 5 [5]) (Ex.ref 5) Ex.replaceRoute1 None
    (Ex.repoAt 5 None, Ex.deltaVars5)
  = (Returned (Some (errors_New "no delta action available: replace")),
     (Ex.repoAt 5 None, Ex.deltaVars5))
  ∧ applyDeltaFunc (Ex.notificationOf 5 [5]) (Ex.ref 5) Ex.addGarbage None
      (Ex.repoAt 5 None, Ex.deltaVars5)
    = (Returned (Some (lib_error "rpsl" "not an RPSL object")),
       (Ex.repoAt 5 None, Ex.deltaVars5))
  ∧ applyDeltaFunc (Ex.notificationOf 5 [5]) (Ex.ref 5) Ex.truncated (Some io_EOF)
      (Ex.repoAt 5 None, Ex.deltaVars5)
    = (Returned (Some (lib_error "json" "invalid character")),
       (Ex.repoAt 5 None, Ex.deltaVars5)).
Proof.
  split; [| split].
  - destruct (@applyDeltaFunc_entry_not_applied Ex.decoders MemRepo.t
                MemRepo_Repository (Ex.notificationOf 5 [5]) (Ex.ref 5)
                Ex.replaceRoute1 None (Ex.repoAt 5 None) Ex.deltaVars5 Ex.header5
                eq_refl (or_introl eq_refl)) as [_ Hdelta].
    destruct (Hdelta _ eq_refl) as (_ & _ & Hother).
    apply Hother; discriminate.
  - destruct (@applyDeltaFunc_entry_not_applied Ex.decoders MemRepo.t
                MemRepo_Repository (Ex.notificationOf 5 [5]) (Ex.ref 5)
                Ex.addGarbage None (Ex.repoAt 5 None) Ex.deltaVars5 Ex.header5
                eq_refl (or_introl eq_refl)) as [_ Hdelta].
    destruct (Hdelta _ eq_refl) as (Hadd & _ & _).
    destruct (Hadd eq_refl) as [_ Hparse].
    apply (Hparse "garbage" (Rpsl.mk "" "" "")); reflexivity.
  - destruct (@applyDeltaFunc_entry_not_applied Ex.decoders MemRepo.t
                MemRepo_Repository (Ex.notificationOf 5 [5]) (Ex.ref 5)
                Ex.truncated (Some io_EOF) (Ex.repoAt 5 None) Ex.deltaVars5
                Ex.header5 eq_refl (or_intror eq_refl)) as [Hjson _].
    apply Hjson. reflexivity.
Defined.

Lemma Update_twice_witness :
  let r' :=
    MemRepo.mk [Ex.sourceAt 5] [(1, Ex.notificationOf 5 [5])] [(1, Ex.route2)] None in
  @Update Ex.decoders MemRepo.t MemRepo_Repository (Ex.publisher 5 [5])
    "/var/nrtm" "EXAMPLE" "" (Ex.repoAt 4 None) = (Returned None, r')
  ∧ getSourceByNameAndLabel "EXAMPLE" "" r' = Some (Ex.sourceAt 5)
  ∧ @Update Ex.decoders MemRepo.t MemRepo_Repository (Ex.publisher 5 [5])
      "/var/nrtm" "EXAMPLE" "" r' = (Returned None, r').
Proof.
  intros r'.
  assert (@Update Ex.decoders MemRepo.t MemRepo_Repository (Ex.publisher 5 [5])
            "/var/nrtm" "EXAMPLE" "" (Ex.repoAt 4 None) = (Returned None, r'))
    as Hfirst by (vm_compute; reflexivity).
  split; [exact Hfirst |].
  apply (@Update_twice Ex.decoders (Ex.publisher 5 [5]) "/var/nrtm" "EXAMPLE" ""
           (Ex.repoAt 4 None) r' (Ex.sourceAt 4) (Ex.notificationOf 5 [5])).
  - intros bytes. cbn. unfold Table.bytes_lookup.
    destruct (List.find _ _); discriminate.
  - cbn. apply NoDup_singleton.
  - reflexivity.
  - reflexivity.
  - exact Hfirst.
Defined.

Lemma callbacks_on_reader_errors_witness :
  applyDeltaFunc (Ex.notificationOf 5 [5]) (Ex.ref 5) Ex.addRoute2
    (Some persist_ErrNoEntity) (Ex.newRepo, Ex.deltaVars5)
  = (Returned (Some persist_ErrNoEntity), (Ex.newRepo, Ex.deltaVars5))
  ∧ snapshotObjectInsertFunc (Ex.notificationOf 5 [5]) Ex.addRoute2
      (Some persist_ErrNoEntity) (Ex.newRepo, Ex.snapshotVars3)
    = (Returned None, (Ex.newRepo, Ex.snapshotVars3)).
Proof.
  apply (@callbacks_on_reader_errors Ex.decoders MemRepo.t MemRepo_Repository
           (Ex.notificationOf 5 [5]) (Ex.ref 5)).
  discriminate.
Defined.
